(** * useOrbitalMenu: layout engine and gesture controller

    A shallow embedding of the [useOrbitalMenu] hook: the arc layout of the
    satellite items ([calculateItemPositions]) and the pointer-gesture
    handlers that drag the button and toggle the menu.

    Conventions of the embedding.
    - A JavaScript [number] holding a coordinate, a size or an angle is a
      real number ([R]); [Math.max], [Math.min], [Math.sqrt], [Math.cos] and
      [Math.sin] are [Rmax], [Rmin], [sqrt], [cos] and [sin].  The theorems
      over [R] either repeat the expression the code evaluates or rest on
      [max], [min] and comparisons; where the rounding of IEEE doubles
      decides a property, the arithmetic is redone in binary64 (section
      "The angle arithmetic in binary64").
    - [itemCount] and the values of [Date.now()] are integers ([Z]).
    - The four [useState] cells and the four [useRef] cells are fields of one
      record, [State]; a handler is a function from [State] to [State].  A
      handler reads the [useState] values of the render that created it;
      the component attaches the handlers of the latest render, so a handler
      is applied to the current [State].
    - [Date.now()] and the bounding rectangle of the button are arguments of
      the handlers that read them; the window size is an argument of the
      animation frame.
    - [requestAnimationFrame] / [cancelAnimationFrame] are modelled by a
      queue of pending callbacks, kept in the same record.
    - The [useEffect] that recomputes the item positions runs after the
      render that follows a handler; a [State] value is what one render of
      the hook returns. *)

From Stdlib Require Import String.
From Stdlib Require Import PrimFloat.
From Stdlib Require Import Reals ZArith List Bool Lia Lra.
Import ListNotations.

Open Scope R_scope.

(** ** Data model *)

(** [interface Position { x; y }] *)
Record Position : Type := mkPosition {
  pos_x : R;
  pos_y : R
}.

(** [interface ItemPosition extends Position { angle }] *)
Record ItemPosition : Type := mkItemPosition {
  item_x : R;
  item_y : R;
  item_angle : R
}.

(** [interface UseOrbitalMenuProps], without the two DOM refs, which are
    inputs of the events that read them. *)
Record UseOrbitalMenuProps : Type := mkProps {
  itemCount : Z;
  radius : R;
  startAngle : R;
  sweepAngle : R;
  buttonSize : R;
  itemSize : R;
  boundaryPadding : R;
  initialPosition : Position
}.

Definition DEFAULT_RADIUS : R := 100.
Definition DEFAULT_START_ANGLE : R := - PI / 2.
Definition DEFAULT_SWEEP_ANGLE : R := PI * 2.
Definition DEFAULT_BUTTON_SIZE : R := 50.
Definition DEFAULT_ITEM_SIZE : R := 40.
Definition DEFAULT_BOUNDARY_PADDING : R := 10.
Definition CLICK_THRESHOLD_MS : Z := 200.
Definition CLICK_THRESHOLD_PX : R := 5.

(** The props the hook sees when the caller passes only [itemCount]:
    every optional field takes its default, [initialPosition] being
    [{ x: 100, y: window.innerHeight / 2 }]. *)
Definition defaultProps (count : Z) (innerHeight : R) : UseOrbitalMenuProps :=
  {| itemCount := count;
     radius := DEFAULT_RADIUS;
     startAngle := DEFAULT_START_ANGLE;
     sweepAngle := DEFAULT_SWEEP_ANGLE;
     buttonSize := DEFAULT_BUTTON_SIZE;
     itemSize := DEFAULT_ITEM_SIZE;
     boundaryPadding := DEFAULT_BOUNDARY_PADDING;
     initialPosition := mkPosition 100 (innerHeight / 2) |}.

(** The props [OrbitalMenuButton] passes: four menu items, a 60px button,
    an arc of 270 degrees starting at the top left. *)
Definition componentProps (innerHeight : R) : UseOrbitalMenuProps :=
  {| itemCount := 4;
     radius := 100;
     startAngle := - PI / 2 - PI / 4;
     sweepAngle := PI * 1.5;
     buttonSize := 60;
     itemSize := 40;
     boundaryPadding := 10;
     initialPosition := mkPosition 100 (innerHeight / 2) |}.

(** [a < b] on numbers, as a boolean. *)
Definition Rltb (a b : R) : bool := if Rlt_dec a b then true else false.

(** ** Layout engine *)

Section Layout.

Variable props : UseOrbitalMenuProps.

(** [const angleStep = itemCount > 1 ? sweepAngle / (itemCount - 1) : 0] *)
Definition angleStep : R :=
  if (1 <? itemCount props)%Z
  then sweepAngle props / IZR (itemCount props - 1)
  else 0.

(** The body of the [for] loop at index [i]: the pushed entry. *)
Definition itemAt (cx cy : R) (i : Z) : ItemPosition :=
  let angle :=
    startAngle props
    + (if (itemCount props =? 1)%Z then 0 else IZR i * angleStep) in
  {| item_x := cx + radius props * cos angle;
     item_y := cy + radius props * sin angle;
     item_angle := angle |}.

(** [for (let i = ...; i < itemCount; i++) positions.push(...)], from the
    current [i] and [positions]; [fuel] bounds the number of iterations. *)
Fixpoint forLoop (cx cy : R) (fuel : nat) (i : Z)
         (positions : list ItemPosition) : list ItemPosition :=
  match fuel with
  | O => positions
  | S fuel' =>
      if (i <? itemCount props)%Z
      then forLoop cx cy fuel' (i + 1) (positions ++ [itemAt cx cy i])
      else positions
  end.

(** [calculateItemPositions(cx, cy)].  The loop runs [itemCount] times at
    most, so that much fuel lets it leave through its guard
    ([forLoop_guard_exit] below). *)
Definition calculateItemPositions (cx cy : R) : list ItemPosition :=
  forLoop cx cy (Z.to_nat (itemCount props)) 0 [].

(** The indices the loop visits. *)
Definition indices (n : nat) : list Z := map Z.of_nat (seq 0 n).

(** The [n] indices from [i] on. *)
Definition indicesFrom (i : Z) (n : nat) : list Z :=
  map (fun k => (i + Z.of_nat k)%Z) (seq 0 n).

End Layout.

(** Entry [i] of an arc of more than one item, as a closed formula: angle
    [startAngle + i * (sweepAngle / (itemCount - 1))]. *)
Definition arcItem (props : UseOrbitalMenuProps) (cx cy : R) (i : Z)
  : ItemPosition :=
  let angle :=
    startAngle props
    + IZR i * (sweepAngle props / IZR (itemCount props - 1)) in
  {| item_x := cx + radius props * cos angle;
     item_y := cy + radius props * sin angle;
     item_angle := angle |}.

(** ** The angle arithmetic in binary64

    The angle of entry [i], with every operation of the source rounded as
    an IEEE double rounds it.  [itemCount] and [i] are integers small enough
    to be doubles themselves. *)

(** [Math.PI] *)
Definition MATH_PI : float := 0x1.921fb54442d18p+1%float.

(** The double that holds the integer [z]: its binary digits are summed
    in doubles, which is exact below 2^53. *)
Fixpoint numberOfPositive (p : positive) : float :=
  match p with
  | xH => 1%float
  | xO q => (2 * numberOfPositive q)%float
  | xI q => (2 * numberOfPositive q + 1)%float
  end.

Definition numberOfZ (z : Z) : float :=
  match z with
  | Z0 => 0%float
  | Zpos p => numberOfPositive p
  | Zneg p => (- numberOfPositive p)%float
  end.

(** [const angleStep = itemCount > 1 ? sweepAngle / (itemCount - 1) : 0] *)
Definition angleStep64 (count : Z) (sweep : float) : float :=
  if (1 <? count)%Z then (sweep / numberOfZ (count - 1))%float else 0%float.

(** [const angle = startAngle + (itemCount === 1 ? 0 : i * angleStep)] *)
Definition itemAngle64 (count : Z) (start sweep : float) (i : Z) : float :=
  (start + (if (count =? 1)%Z
            then 0
            else numberOfZ i * angleStep64 count sweep))%float.

(** [DEFAULT_START_ANGLE] and [DEFAULT_SWEEP_ANGLE] as doubles. *)
Definition DEFAULT_START_ANGLE64 : float := (- MATH_PI / 2)%float.
Definition DEFAULT_SWEEP_ANGLE64 : float := (MATH_PI * 2)%float.

(** ** Events and environment *)

(** The part of a DOM [MouseEvent] that the handlers read. *)
Record MouseEvent : Type := mkMouseEvent {
  clientX : R;
  clientY : R
}.

(** A DOM [PointerEvent] is a [MouseEvent] with a [pointerId]. *)
Record PointerEvent : Type := mkPointerEvent {
  mouse :> MouseEvent;
  pointerId : Z
}.

(** The result of [getBoundingClientRect()]. *)
Record DOMRect : Type := mkDOMRect {
  rect_left : R;
  rect_top : R;
  rect_width : R;
  rect_height : R
}.

(** ** Controller state *)

Record State : Type := mkState {
  (* useState *)
  isOpen : bool;
  buttonPosition : Position;
  itemPositions : list ItemPosition;
  isDragging : bool;
  (* useRef *)
  dragStartRef : option Position;
  dragStartTimeRef : Z;
  dragOffsetRef : Position;
  animationFrameRef : option Z;
  (* React: a dependency of the item-positions effect changed since the
     effect last ran *)
  effectDue : bool;
  (* browser: next handle of requestAnimationFrame, and the callbacks
     waiting for the next frame, each with the event its closure captured *)
  rafNext : Z;
  rafQueue : list (Z * PointerEvent)
}.

Definition with_isOpen (v : bool) (s : State) : State :=
  mkState v (buttonPosition s) (itemPositions s) (isDragging s)
          (dragStartRef s) (dragStartTimeRef s) (dragOffsetRef s)
          (animationFrameRef s) (effectDue s) (rafNext s) (rafQueue s).

Definition with_buttonPosition (v : Position) (s : State) : State :=
  mkState (isOpen s) v (itemPositions s) (isDragging s)
          (dragStartRef s) (dragStartTimeRef s) (dragOffsetRef s)
          (animationFrameRef s) (effectDue s) (rafNext s) (rafQueue s).

Definition with_itemPositions (v : list ItemPosition) (s : State) : State :=
  mkState (isOpen s) (buttonPosition s) v (isDragging s)
          (dragStartRef s) (dragStartTimeRef s) (dragOffsetRef s)
          (animationFrameRef s) (effectDue s) (rafNext s) (rafQueue s).

Definition with_isDragging (v : bool) (s : State) : State :=
  mkState (isOpen s) (buttonPosition s) (itemPositions s) v
          (dragStartRef s) (dragStartTimeRef s) (dragOffsetRef s)
          (animationFrameRef s) (effectDue s) (rafNext s) (rafQueue s).

Definition with_dragStartRef (v : option Position) (s : State) : State :=
  mkState (isOpen s) (buttonPosition s) (itemPositions s) (isDragging s)
          v (dragStartTimeRef s) (dragOffsetRef s)
          (animationFrameRef s) (effectDue s) (rafNext s) (rafQueue s).

Definition with_dragStartTimeRef (v : Z) (s : State) : State :=
  mkState (isOpen s) (buttonPosition s) (itemPositions s) (isDragging s)
          (dragStartRef s) v (dragOffsetRef s)
          (animationFrameRef s) (effectDue s) (rafNext s) (rafQueue s).

Definition with_dragOffsetRef (v : Position) (s : State) : State :=
  mkState (isOpen s) (buttonPosition s) (itemPositions s) (isDragging s)
          (dragStartRef s) (dragStartTimeRef s) v
          (animationFrameRef s) (effectDue s) (rafNext s) (rafQueue s).

Definition with_animationFrameRef (v : option Z) (s : State) : State :=
  mkState (isOpen s) (buttonPosition s) (itemPositions s) (isDragging s)
          (dragStartRef s) (dragStartTimeRef s) (dragOffsetRef s)
          v (effectDue s) (rafNext s) (rafQueue s).

Definition with_effectDue (v : bool) (s : State) : State :=
  mkState (isOpen s) (buttonPosition s) (itemPositions s) (isDragging s)
          (dragStartRef s) (dragStartTimeRef s) (dragOffsetRef s)
          (animationFrameRef s) v (rafNext s) (rafQueue s).

Definition with_raf (next : Z) (queue : list (Z * PointerEvent)) (s : State)
  : State :=
  mkState (isOpen s) (buttonPosition s) (itemPositions s) (isDragging s)
          (dragStartRef s) (dragStartTimeRef s) (dragOffsetRef s)
          (animationFrameRef s) (effectDue s) next queue.

(** *** React state setters

    [isOpen] and [buttonPosition] are dependencies of the item-positions
    effect.  React compares a new state with the old one by [Object.is]: a
    boolean that keeps its value changes nothing, a fresh [{x, y}] object
    always counts as a change. *)

Definition setIsOpen (updater : bool -> bool) (s : State) : State :=
  let v := updater (isOpen s) in
  with_effectDue (effectDue s || negb (Bool.eqb v (isOpen s)))
                 (with_isOpen v s).

Definition setButtonPosition (v : Position) (s : State) : State :=
  with_effectDue true (with_buttonPosition v s).

Definition setIsDragging (v : bool) (s : State) : State :=
  with_isDragging v s.

Definition setItemPositions (v : list ItemPosition) (s : State) : State :=
  with_itemPositions v s.

(** *** Browser frame scheduler *)

(** [requestAnimationFrame(cb)]: the callback joins the queue under a fresh
    handle, which is returned. *)
Definition requestAnimationFrame (captured : PointerEvent) (s : State)
  : Z * State :=
  (rafNext s,
   with_raf (rafNext s + 1) (rafQueue s ++ [(rafNext s, captured)]) s).

(** [cancelAnimationFrame(handle)]: the callback of that handle, if it is
    still waiting, is dropped. *)
Definition cancelAnimationFrame (handle : Z) (s : State) : State :=
  with_raf (rafNext s)
           (filter (fun cb => negb (fst cb =? handle)%Z) (rafQueue s)) s.

(** Truthiness of [animationFrameRef.current] ([null] and [0] are falsy). *)
Definition truthyHandle (r : option Z) : option Z :=
  match r with
  | Some h => if (h =? 0)%Z then None else Some h
  | None => None
  end.

(** ** Gesture controller *)

(** [Math.max(lo, Math.min(v, hi))]: the clamp applied to each axis of the
    button centre. *)
Definition clamp (lo hi v : R) : R := Rmax lo (Rmin v hi).

(** [dragStartRef.current ? Math.sqrt(Math.pow(dx, 2) + Math.pow(dy, 2)) : 0],
    the distance computed by [handlePointerUp] and by [handleClick]. *)
Definition distanceMoved (start : option Position) (event : MouseEvent) : R :=
  match start with
  | Some p =>
      sqrt ((clientX event - pos_x p) ^ 2 + (clientY event - pos_y p) ^ 2)
  | None => 0
  end.

(** [duration < CLICK_THRESHOLD_MS && distanceMoved < CLICK_THRESHOLD_PX] *)
Definition isClickGesture (duration : Z) (distance : R) : bool :=
  (duration <? CLICK_THRESHOLD_MS)%Z && Rltb distance CLICK_THRESHOLD_PX.

Section Controller.

Variable props : UseOrbitalMenuProps.

(** The first render: the [useState] and [useRef] initial values.  The
    effect has not run yet. *)
Definition mount : State :=
  {| isOpen := false;
     buttonPosition := initialPosition props;
     itemPositions := [];
     isDragging := false;
     dragStartRef := None;
     dragStartTimeRef := 0;
     dragOffsetRef := mkPosition 0 0;
     animationFrameRef := None;
     effectDue := true;
     rafNext := 1;
     rafQueue := [] |}.

(** The [useEffect] on [isOpen, buttonPosition, calculateItemPositions]. *)
Definition itemPositionsEffect (s : State) : State :=
  if isOpen s
  then setItemPositions
         (calculateItemPositions props (pos_x (buttonPosition s))
                                 (pos_y (buttonPosition s))) s
  else setItemPositions [] s.

(** After a render React runs the effect when one of its dependencies
    changed. *)
Definition flushEffects (s : State) : State :=
  if effectDue s then with_effectDue false (itemPositionsEffect s) else s.

(** [handlePointerDown], at time [now = Date.now()]; [rect] is
    [buttonRef.current?.getBoundingClientRect()].  Pointer capture,
    [preventDefault] and [stopPropagation] act on the DOM only. *)
Definition handlePointerDown (now : Z) (rect : option DOMRect)
           (event : PointerEvent) (s : State) : State :=
  let s1 := setIsDragging true s in
  let s2 := with_dragStartTimeRef now s1 in
  let s3 := with_dragStartRef
              (Some (mkPosition (clientX event) (clientY event))) s2 in
  match rect with
  | Some r =>
      with_dragOffsetRef
        (mkPosition (clientX event - (rect_left r + rect_width r / 2))
                    (clientY event - (rect_top r + rect_height r / 2))) s3
  | None => with_dragOffsetRef (mkPosition 0 0) s3
  end.

(** The constraint on the button centre inside the frame callback. *)
Definition halfButton : R := buttonSize props / 2.
Definition minX : R := halfButton + boundaryPadding props.
Definition maxX (innerWidth : R) : R :=
  innerWidth - halfButton - boundaryPadding props.
Definition minY : R := halfButton + boundaryPadding props.
Definition maxY (innerHeight : R) : R :=
  innerHeight - halfButton - boundaryPadding props.

Definition clampToViewport (innerWidth innerHeight : R) (candidate : Position)
  : Position :=
  mkPosition (clamp minX (maxX innerWidth) (pos_x candidate))
             (clamp minY (maxY innerHeight) (pos_y candidate)).

(** The desired centre: pointer position minus the grab offset. *)
Definition candidateCenter (event : PointerEvent) (s : State) : Position :=
  mkPosition (clientX event - pos_x (dragOffsetRef s))
             (clientY event - pos_y (dragOffsetRef s)).

(** The callback [handlePointerMove] hands to [requestAnimationFrame]; it
    runs in a later frame, with the window size of that moment and the
    [event] its closure captured. *)
Definition frameCallback (innerWidth innerHeight : R) (event : PointerEvent)
           (s : State) : State :=
  setButtonPosition
    (clampToViewport innerWidth innerHeight (candidateCenter event s)) s.

(** [handlePointerMove] *)
Definition handlePointerMove (event : PointerEvent) (s : State) : State :=
  if negb (isDragging s)
     || match dragStartRef s with Some _ => false | None => true end
  then s
  else
    let s1 := match truthyHandle (animationFrameRef s) with
              | Some h => cancelAnimationFrame h s
              | None => s
              end in
    let (handle, s2) := requestAnimationFrame event s1 in
    with_animationFrameRef (Some handle) s2.

(** A burst of pointer-move events, handled one after the other with no
    frame in between. *)
Definition handlePointerMoves (events : list PointerEvent) (s : State)
  : State :=
  fold_left (fun st event => handlePointerMove event st) events s.

(** The browser's frame: the waiting callbacks run in order and the queue
    is emptied. *)
Definition runAnimationFrame (innerWidth innerHeight : R) (s : State) : State :=
  fold_left (fun st cb => frameCallback innerWidth innerHeight (snd cb) st)
            (rafQueue s) (with_raf (rafNext s) [] s).

(** [handlePointerUp], also bound to [pointercancel]. *)
Definition handlePointerUp (now : Z) (event : PointerEvent) (s : State)
  : State :=
  if negb (isDragging s) then s
  else
    let s1 := match truthyHandle (animationFrameRef s) with
              | Some h => with_animationFrameRef None (cancelAnimationFrame h s)
              | None => s
              end in
    let duration := (now - dragStartTimeRef s1)%Z in
    let distance := distanceMoved (dragStartRef s1) event in
    (* both branches of the click-or-drag test are empty *)
    let s2 := if isClickGesture duration distance then s1 else s1 in
    with_dragStartRef None (setIsDragging false s2).

(** [handleClick] *)
Definition handleClick (now : Z) (event : MouseEvent) (s : State) : State :=
  let duration := (now - dragStartTimeRef s)%Z in
  let distance := distanceMoved (dragStartRef s) event in
  if isClickGesture duration distance then setIsOpen negb s else s.

(** [toggleMenu(forceState?)] *)
Definition toggleMenu (forceState : option bool) (s : State) : State :=
  setIsOpen (fun prev => match forceState with
                         | Some b => b
                         | None => negb prev
                         end) s.

(** What can happen to the controller. *)
Inductive Event : Type :=
| PointerDown (now : Z) (rect : option DOMRect) (event : PointerEvent)
| PointerMove (event : PointerEvent)
| PointerUp (now : Z) (event : PointerEvent)
| Click (now : Z) (event : MouseEvent)
| ToggleMenu (forceState : option bool)
| AnimationFrame (innerWidth innerHeight : R).

(** The handler of an event; its result is the state of the next render. *)
Definition handle (ev : Event) (s : State) : State :=
  match ev with
  | PointerDown now rect event => handlePointerDown now rect event s
  | PointerMove event => handlePointerMove event s
  | PointerUp now event => handlePointerUp now event s
  | Click now event => handleClick now event s
  | ToggleMenu forceState => toggleMenu forceState s
  | AnimationFrame w h => runAnimationFrame w h s
  end.

(** One event up to the point where React is idle again: the handler, the
    render, then the effect. *)
Definition dispatch (ev : Event) (s : State) : State :=
  flushEffects (handle ev s).

Definition run (evs : list Event) (s : State) : State :=
  fold_left (fun st ev => dispatch ev st) evs s.

(** The renders the hook can produce: the first one, the render after a
    handler, the render after the effect. *)
Inductive rendered : State -> Prop :=
| rendered_mount : rendered mount
| rendered_handle ev s : rendered s -> rendered (handle ev s)
| rendered_effect s : rendered s -> rendered (flushEffects s).

(** The states in which React is idle: mounted, then whole events. *)
Inductive settled : State -> Prop :=
| settled_mount : settled (flushEffects mount)
| settled_dispatch ev s : settled s -> settled (dispatch ev s).

(** The frame queue holds nothing but the callback [animationFrameRef]
    names, and issued handles are positive and below [rafNext]. *)
Definition queueCoalesced (s : State) : Prop :=
  (0 < rafNext s)%Z
  /\ (forall h, animationFrameRef s = Some h -> (0 < h < rafNext s)%Z)
  /\ (rafQueue s = []
      \/ exists h event,
           animationFrameRef s = Some h /\ rafQueue s = [(h, event)]).

(** The exposed satellite list agrees with [isOpen] and the button
    position. *)
Definition itemsConsistent (s : State) : Prop :=
  if isOpen s
  then itemPositions s
       = calculateItemPositions props (pos_x (buttonPosition s))
                                (pos_y (buttonPosition s))
       /\ length (itemPositions s) = Z.to_nat (itemCount props)
  else itemPositions s = [].

End Controller.

(** ** Scenarios

    The concrete runs the properties below are tried on. *)

(** A pointer event of the primary pointer at [(x, y)]. *)
Definition pointerAt (x y : R) : PointerEvent :=
  mkPointerEvent (mkMouseEvent x y) 1.

(** The 50px button as laid out around the centre [(cx, cy)]. *)
Definition buttonRectAt (cx cy : R) : DOMRect :=
  mkDOMRect (cx - 25) (cy - 25) 50 50.

(** Default props in a window 800px high: the button starts at (100, 400). *)
Definition scenarioProps : UseOrbitalMenuProps := defaultProps 4 800.

(** Mounted and idle. *)
Definition idle : State := flushEffects scenarioProps (mount scenarioProps).

(** The button grabbed at its centre. *)
Definition grabbed : State :=
  handlePointerDown 0 (Some (buttonRectAt 100 400)) (pointerAt 100 400) idle.

(** Default props in a window 200px high: the button starts at (100, 100). *)
Definition dragProps : UseOrbitalMenuProps := defaultProps 4 200.

(** Press the button at (100, 100), release 50ms later 40px to the right;
    the browser then delivers the click. *)
Definition dragGesture : list Event :=
  [ PointerDown 0 (Some (buttonRectAt 100 100)) (pointerAt 100 100);
    PointerUp 50 (pointerAt 140 100);
    Click 50 (mkMouseEvent 140 100) ].

(** A value of [Date.now()]: milliseconds since 1970, in November 2023. *)
Definition someDateNow : Z := 1700000000000.

(** The click a browser synthesises when the focused button is activated
    with Enter or Space. *)
Definition keyboardClick : Event := Click someDateNow (mkMouseEvent 0 0).

(** ** OrbitalMenuButton

    The component that uses the hook: its configuration, the geometry of
    what it renders, and its two own handlers. *)

Record MenuItem : Type := mkMenuItem {
  menu_id : string;
  menu_label : string
}.

(** [MENU_ITEMS], without the icon components. *)
Definition MENU_ITEMS : list MenuItem :=
  [ mkMenuItem "home"%string "Home"%string;
    mkMenuItem "settings"%string "Settings"%string;
    mkMenuItem "profile"%string "Profile"%string;
    mkMenuItem "contact"%string "Contact"%string ].

Definition BUTTON_SIZE : R := 60.
Definition ITEM_SIZE : R := 40.
Definition BOUNDARY_PADDING : R := 10.

(** The [style] of the button: [left], [top], [width] and [height].  The
    button is [position: fixed], so this is its rectangle in the viewport. *)
Definition buttonStyle (s : State) : DOMRect :=
  mkDOMRect (pos_x (buttonPosition s) - BUTTON_SIZE / 2)
            (pos_y (buttonPosition s) - BUTTON_SIZE / 2)
            BUTTON_SIZE BUTTON_SIZE.

(** The [style] of one menu item. *)
Definition itemStyle (pos : ItemPosition) : DOMRect :=
  mkDOMRect (item_x pos - ITEM_SIZE / 2) (item_y pos - ITEM_SIZE / 2)
            ITEM_SIZE ITEM_SIZE.

(** [itemPositions.map((pos, index) => ...)] from [index] on: each position
    is paired with [MENU_ITEMS[index]].  Reading [item.id] of a missing
    entry throws; that is [None]. *)
Fixpoint renderItemsFrom (index : nat) (positions : list ItemPosition)
  : option (list (MenuItem * DOMRect)) :=
  match positions with
  | [] => Some []
  | pos :: rest =>
      match nth_error MENU_ITEMS index with
      | Some item =>
          option_map (cons (item, itemStyle pos))
                     (renderItemsFrom (S index) rest)
      | None => None
      end
  end.

Definition renderItems (s : State) : option (list (MenuItem * DOMRect)) :=
  renderItemsFrom 0 (itemPositions s).

(** [ref.current && !ref.current.contains(event.target)]: [None] is a ref
    that is not attached, [Some b] the answer of [contains]. *)
Definition outsideOf (contains : option bool) : bool :=
  match contains with
  | Some b => negb b
  | None => false
  end.

(** [handleOutsideClick], the [pointerdown] listener on [document]. *)
Definition handleOutsideClick (inButton inMenu : option bool) (s : State)
  : State :=
  if isOpen s && outsideOf inButton && outsideOf inMenu
  then toggleMenu (Some false) s
  else s.

(** The [onClick] of a menu item (its [console.log] left out). *)
Definition menuItemOnClick (s : State) : State := toggleMenu (Some false) s.

(** ** Vocabulary of the properties *)

(** [p] lies inside the viewport shrunk by the padding and half a button. *)
Definition inPaddedViewport (props : UseOrbitalMenuProps)
           (innerWidth innerHeight : R) (p : Position) : Prop :=
  minX props <= pos_x p <= maxX props innerWidth
  /\ minY props <= pos_y p <= maxY props innerHeight.

(** The animation frames among [ev] see a window of this size. *)
Definition frameOf (innerWidth innerHeight : R) (ev : Event) : Prop :=
  match ev with
  | AnimationFrame w h => w = innerWidth /\ h = innerHeight
  | _ => True
  end.

Definition isFrame (ev : Event) : bool :=
  match ev with
  | AnimationFrame _ _ => true
  | _ => false
  end.

(** The events that call [setIsOpen]. *)
Definition isActivation (ev : Event) : bool :=
  match ev with
  | Click _ _ | ToggleMenu _ => true
  | _ => false
  end.


(** * Properties *)

(** ** Numbers *)

Lemma Rltb_true (a b : R) : a < b -> Rltb a b = true.
Proof.
  intros H. unfold Rltb. destruct (Rlt_dec a b); [reflexivity | contradiction].
Qed.


(** ** Layout engine *)

Section LayoutFacts.

Variable props : UseOrbitalMenuProps.
Variables cx cy : R.

Let N := itemCount props.

Lemma indicesFrom_succ (i : Z) (n : nat) :
  indicesFrom i (S n) = i :: indicesFrom (i + 1) n.
Proof.
  unfold indicesFrom. cbn [seq map]. rewrite Z.add_0_r. f_equal.
  rewrite <- seq_shift, map_map. apply map_ext. intros k. lia.
Qed.

(** With enough fuel the loop leaves through its guard, having pushed one
    entry per index from [i] up to [itemCount - 1]. *)
Lemma forLoop_guard_exit (fuel : nat) :
  forall (i : Z) (positions : list ItemPosition),
    (Z.to_nat (N - i) <= fuel)%nat ->
    forLoop props cx cy fuel i positions
    = positions ++ map (itemAt props cx cy) (indicesFrom i (Z.to_nat (N - i))).
Proof.
  induction fuel as [|fuel IH]; intros i positions Hfuel.
  - assert (Z.to_nat (N - i) = 0%nat) as -> by lia.
    cbn. now rewrite app_nil_r.
  - cbn [forLoop]. fold N. destruct (i <? N)%Z eqn:Hguard.
    + apply Z.ltb_lt in Hguard.
      assert (Z.to_nat (N - i) = S (Z.to_nat (N - (i + 1)))) as Hn by lia.
      rewrite IH by lia. rewrite Hn, indicesFrom_succ. cbn [map].
      now rewrite <- app_assoc.
    + apply Z.ltb_ge in Hguard.
      assert (Z.to_nat (N - i) = 0%nat) as -> by lia.
      cbn. now rewrite app_nil_r.
Qed.

(** More fuel than [itemCount] changes nothing. *)
Lemma forLoop_fuel_irrelevant (fuel : nat) :
  (Z.to_nat N <= fuel)%nat ->
  forLoop props cx cy fuel 0 [] = calculateItemPositions props cx cy.
Proof.
  intros Hfuel. unfold calculateItemPositions. fold N.
  rewrite !forLoop_guard_exit by (rewrite ?Z.sub_0_r; lia). reflexivity.
Qed.

(** The layout is the loop body mapped over [0, 1, ..., itemCount - 1]. *)
Lemma calculateItemPositions_map :
  calculateItemPositions props cx cy
  = map (itemAt props cx cy) (indices (Z.to_nat N)).
Proof.
  unfold calculateItemPositions. fold N.
  rewrite forLoop_guard_exit by (rewrite Z.sub_0_r; lia).
  rewrite Z.sub_0_r. cbn [app]. reflexivity.
Qed.

Lemma calculateItemPositions_length :
  length (calculateItemPositions props cx cy) = Z.to_nat N.
Proof.
  rewrite calculateItemPositions_map. unfold indices.
  now rewrite !length_map, length_seq.
Qed.

Lemma calculateItemPositions_nth (i : Z) :
  (0 <= i < N)%Z ->
  nth_error (calculateItemPositions props cx cy) (Z.to_nat i)
  = Some (itemAt props cx cy i).
Proof.
  intros Hi. rewrite calculateItemPositions_map. unfold indices.
  rewrite !nth_error_map, nth_error_seq.
  assert ((Z.to_nat i <? Z.to_nat N)%nat = true) as ->
      by (apply Nat.ltb_lt; lia).
  cbn. now rewrite Z2Nat.id by lia.
Qed.

End LayoutFacts.

Lemma itemAt_arcItem (props : UseOrbitalMenuProps) (cx cy : R) (i : Z) :
  (1 < itemCount props)%Z -> itemAt props cx cy i = arcItem props cx cy i.
Proof.
  intros HN. unfold itemAt, arcItem, angleStep.
  assert ((itemCount props =? 1)%Z = false) as -> by (apply Z.eqb_neq; lia).
  assert ((1 <? itemCount props)%Z = true) as -> by (apply Z.ltb_lt; lia).
  reflexivity.
Qed.

(** C3, with the last angle as the code computes it.  For more than one
    item, [calculateItemPositions] returns exactly [itemCount] entries in
    index order; entry [i] has angle
    [startAngle + i * (sweepAngle / (itemCount - 1))] and lies at
    [(cx + radius * cos angle, cy + radius * sin angle)]; entry 0 is at
    [startAngle], and the last entry has the angle
    [startAngle + (itemCount - 1) * (sweepAngle / (itemCount - 1))]. *)
Theorem calculateItemPositions_arc (props : UseOrbitalMenuProps) (cx cy : R) :
  (1 < itemCount props)%Z ->
  let items := calculateItemPositions props cx cy in
  let last := (itemCount props - 1)%Z in
  let lastAngle :=
    startAngle props + IZR last * (sweepAngle props / IZR last) in
  length items = Z.to_nat (itemCount props)
  /\ items = map (arcItem props cx cy) (indices (Z.to_nat (itemCount props)))
  /\ (forall i : Z,
        (0 <= i < itemCount props)%Z ->
        nth_error items (Z.to_nat i) = Some (arcItem props cx cy i))
  /\ nth_error items 0
     = Some {| item_x := cx + radius props * cos (startAngle props);
               item_y := cy + radius props * sin (startAngle props);
               item_angle := startAngle props |}
  /\ nth_error items (Z.to_nat last)
     = Some {| item_x := cx + radius props * cos lastAngle;
               item_y := cy + radius props * sin lastAngle;
               item_angle := lastAngle |}.
Proof.
  intros HN items last lastAngle. subst items last lastAngle.
  assert (forall i : Z,
             (0 <= i < itemCount props)%Z ->
             nth_error (calculateItemPositions props cx cy) (Z.to_nat i)
             = Some (arcItem props cx cy i)) as Hnth.
  { intros i Hi. rewrite calculateItemPositions_nth by exact Hi.
    now rewrite itemAt_arcItem. }
  split; [apply calculateItemPositions_length|].
  split.
  { rewrite calculateItemPositions_map. apply map_ext.
    intros i. now apply itemAt_arcItem. }
  split; [exact Hnth|].
  split.
  - change 0%nat with (Z.to_nat 0).
    rewrite (Hnth 0%Z) by lia. unfold arcItem.
    replace (startAngle props
             + 0 * (sweepAngle props / IZR (itemCount props - 1)))
      with (startAngle props) by lra.
    reflexivity.
  - rewrite Hnth by lia. reflexivity.
Qed.

(** The four items of [OrbitalMenuButton] around the centre (100, 400). *)
Lemma calculateItemPositions_arc_witness :
  let props := componentProps 800 in
  let items := calculateItemPositions props 100 400 in
  let lastAngle := - PI / 2 - PI / 4 + 3 * (PI * 1.5 / 3) in
  length items = 4%nat
  /\ nth_error items 0
     = Some {| item_x := 100 + 100 * cos (- PI / 2 - PI / 4);
               item_y := 400 + 100 * sin (- PI / 2 - PI / 4);
               item_angle := - PI / 2 - PI / 4 |}
  /\ nth_error items 3
     = Some {| item_x := 100 + 100 * cos lastAngle;
               item_y := 400 + 100 * sin lastAngle;
               item_angle := lastAngle |}.
Proof.
  intros props items lastAngle.
  destruct (calculateItemPositions_arc props 100 400 ltac:(reflexivity))
    as (Hlen & _ & _ & Hfirst & Hlast).
  split; [exact Hlen|]. split; [exact Hfirst | exact Hlast].
Defined.

(** C3 as stated fails in the code's arithmetic.  With 26 items and the
    default angles the last angle, computed as the code computes it, is the
    double 4.712388980384691, one unit in the last place above
    [startAngle + sweepAngle], which is 4.71238898038469: the division by
    25 and the multiplication by 25 do not cancel.  The first angle is
    [startAngle] itself. *)
Lemma last_angle_rounds_in_binary64 :
  let lastAngle :=
    itemAngle64 26 DEFAULT_START_ANGLE64 DEFAULT_SWEEP_ANGLE64 25 in
  let endOfArc := (DEFAULT_START_ANGLE64 + DEFAULT_SWEEP_ANGLE64)%float in
  lastAngle = 0x1.2d97c7f3321d3p+2%float
  /\ endOfArc = 0x1.2d97c7f3321d2p+2%float
  /\ itemAngle64 26 DEFAULT_START_ANGLE64 DEFAULT_SWEEP_ANGLE64 0
     = DEFAULT_START_ANGLE64
  /\ PrimFloat.eqb lastAngle endOfArc = false
  /\ lastAngle <> endOfArc.
Proof.
  intros lastAngle endOfArc.
  assert (PrimFloat.eqb lastAngle endOfArc = false) as Hneq
      by (vm_compute; reflexivity).
  split; [vm_compute; reflexivity|].
  split; [vm_compute; reflexivity|].
  split; [vm_compute; reflexivity|].
  split; [exact Hneq|].
  intros Heq. rewrite Heq in Hneq. vm_compute in Hneq. discriminate Hneq.
Qed.

(** C4. A single item is placed at [startAngle], whatever [sweepAngle] is:
    the layout is the one entry
    [(cx + r * cos startAngle, cy + r * sin startAngle)] with angle
    [startAngle]. *)
Theorem calculateItemPositions_single
        (cx cy r start sweep bsize isize pad : R) (init : Position) :
  calculateItemPositions (mkProps 1 r start sweep bsize isize pad init) cx cy
  = [ {| item_x := cx + r * cos start;
         item_y := cy + r * sin start;
         item_angle := start |} ]
  /\ forall sweep' : R,
       calculateItemPositions (mkProps 1 r start sweep' bsize isize pad init)
                              cx cy
       = calculateItemPositions (mkProps 1 r start sweep bsize isize pad init)
                                cx cy.
Proof.
  assert (forall sw : R,
             calculateItemPositions (mkProps 1 r start sw bsize isize pad init)
                                    cx cy
             = [ {| item_x := cx + r * cos start;
                    item_y := cy + r * sin start;
                    item_angle := start |} ]) as Hone.
  { intros sw. rewrite calculateItemPositions_map.
    cbn [itemCount Z.to_nat Pos.to_nat Pos.iter_op indices seq map Z.of_nat].
    unfold itemAt.
    cbn [itemCount Z.eqb Pos.eqb radius startAngle].
    now rewrite Rplus_0_r. }
  split; [apply Hone|].
  intros sweep'. now rewrite !Hone.
Qed.

(** C10. For [itemCount <= 0], negative counts included, the loop guard
    fails at once and the layout is empty. *)
Theorem calculateItemPositions_nonpositive
        (props : UseOrbitalMenuProps) (cx cy : R) :
  (itemCount props <= 0)%Z -> calculateItemPositions props cx cy = [].
Proof.
  intros Hn. rewrite calculateItemPositions_map.
  assert (Z.to_nat (itemCount props) = 0%nat) as -> by lia.
  reflexivity.
Qed.

Lemma calculateItemPositions_nonpositive_witness :
  calculateItemPositions (defaultProps (-3) 800) 100 400 = [].
Proof.
  apply calculateItemPositions_nonpositive. cbn. lia.
Defined.

(** ** Clamping *)

Lemma clamp_idempotent (lo hi v : R) :
  clamp lo hi (clamp lo hi v) = clamp lo hi v.
Proof.
  unfold clamp.
  destruct (Rle_dec v hi) as [Hv|Hv].
  - rewrite (Rmin_left v hi) by exact Hv.
    destruct (Rle_dec lo v) as [Hl|Hl].
    + rewrite (Rmax_right lo v) by exact Hl.
      rewrite (Rmin_left v hi) by exact Hv. now rewrite Rmax_right.
    + rewrite (Rmax_left lo v) by lra.
      destruct (Rle_dec lo hi).
      * rewrite (Rmin_left lo hi) by assumption. now rewrite Rmax_left by lra.
      * rewrite (Rmin_right lo hi) by lra. now rewrite Rmax_left by lra.
  - rewrite (Rmin_right v hi) by lra.
    destruct (Rle_dec lo hi) as [Hl|Hl].
    + rewrite (Rmax_right lo hi) by exact Hl.
      rewrite (Rmin_left hi hi) by lra. now rewrite Rmax_right.
    + rewrite (Rmax_left lo hi) by lra.
      rewrite (Rmin_right lo hi) by lra. now rewrite Rmax_left by lra.
Qed.

Lemma clamp_inside (lo hi v : R) : lo <= v <= hi -> clamp lo hi v = v.
Proof.
  intros [Hl Hh]. unfold clamp.
  rewrite (Rmin_left v hi) by exact Hh. now rewrite Rmax_right.
Qed.

Lemma clamp_in_range (lo hi v : R) : lo <= hi -> lo <= clamp lo hi v <= hi.
Proof.
  intros Hne. unfold clamp. split.
  - apply Rmax_l.
  - apply Rmax_lub; [exact Hne | apply Rmin_r].
Qed.

Lemma clamp_below (lo hi v : R) : lo <= hi -> v <= lo -> clamp lo hi v = lo.
Proof.
  intros Hne Hv. unfold clamp.
  rewrite (Rmin_left v hi) by lra. now rewrite Rmax_left.
Qed.

(** C6. The clamp of the button centre is idempotent, and a centre already
    inside the padded viewport is returned unchanged; the interval of each
    axis being non-empty, the clamped centre lies inside the padded
    viewport. *)
Theorem clampToViewport_idempotent
        (props : UseOrbitalMenuProps) (innerWidth innerHeight : R)
        (p : Position) :
  minX props <= maxX props innerWidth ->
  minY props <= maxY props innerHeight ->
  let q := clampToViewport props innerWidth innerHeight p in
  clampToViewport props innerWidth innerHeight q = q
  /\ (minX props <= pos_x p <= maxX props innerWidth ->
      minY props <= pos_y p <= maxY props innerHeight ->
      q = p)
  /\ minX props <= pos_x q <= maxX props innerWidth
  /\ minY props <= pos_y q <= maxY props innerHeight.
Proof.
  intros HX HY q. subst q. split; [|split; [|split]].
  - unfold clampToViewport. cbn [pos_x pos_y].
    now rewrite !clamp_idempotent.
  - intros Hx Hy. unfold clampToViewport.
    rewrite (clamp_inside _ _ _ Hx), (clamp_inside _ _ _ Hy).
    now destruct p.
  - unfold clampToViewport. cbn [pos_x]. now apply clamp_in_range.
  - unfold clampToViewport. cbn [pos_y]. now apply clamp_in_range.
Qed.

Lemma defaultProps_bounds (count : Z) (h innerWidth innerHeight : R) :
  minX (defaultProps count h) = 35
  /\ maxX (defaultProps count h) innerWidth = innerWidth - 35
  /\ minY (defaultProps count h) = 35
  /\ maxY (defaultProps count h) innerHeight = innerHeight - 35.
Proof.
  unfold minX, maxX, minY, maxY, halfButton, defaultProps.
  cbn [buttonSize boundaryPadding].
  unfold DEFAULT_BUTTON_SIZE, DEFAULT_BOUNDARY_PADDING.
  repeat split; lra.
Qed.

Lemma clampToViewport_idempotent_witness :
  let props := defaultProps 4 800 in
  clampToViewport props 1000 800
                  (clampToViewport props 1000 800 (mkPosition (-50) 400))
  = clampToViewport props 1000 800 (mkPosition (-50) 400)
  /\ clampToViewport props 1000 800 (mkPosition 100 400) = mkPosition 100 400.
Proof.
  intros props.
  destruct (defaultProps_bounds 4 800 1000 800) as (Hx0 & Hx1 & Hy0 & Hy1).
  assert (minX props <= maxX props 1000) as Hx
      by (subst props; rewrite Hx0, Hx1; lra).
  assert (minY props <= maxY props 800) as Hy
      by (subst props; rewrite Hy0, Hy1; lra).
  split.
  - exact (proj1 (clampToViewport_idempotent props 1000 800
                    (mkPosition (-50) 400) Hx Hy)).
  - apply (proj1 (proj2 (clampToViewport_idempotent props 1000 800
                             (mkPosition 100 400) Hx Hy)));
      subst props; cbn [pos_x pos_y]; rewrite ?Hx0, ?Hx1, ?Hy0, ?Hy1; lra.
Defined.

(** ** Frame scheduling *)

Ltac unfold_state :=
  unfold setButtonPosition, setIsOpen, setIsDragging, setItemPositions,
    requestAnimationFrame, cancelAnimationFrame,
    with_animationFrameRef, with_raf, with_effectDue, with_buttonPosition,
    with_isOpen, with_isDragging, with_itemPositions, with_dragStartRef,
    with_dragStartTimeRef, with_dragOffsetRef in *;
  cbn [isOpen buttonPosition itemPositions isDragging dragStartRef
       dragStartTimeRef dragOffsetRef animationFrameRef effectDue rafNext
       rafQueue fst snd] in *.

(** While dragging, a pointer-move leaves exactly its own callback in the
    frame queue: whatever was waiting is cancelled. *)
Lemma handlePointerMove_dragging (event : PointerEvent) (s : State) :
  isDragging s = true ->
  dragStartRef s <> None ->
  queueCoalesced s ->
  handlePointerMove event s
  = with_animationFrameRef (Some (rafNext s))
      (with_raf (rafNext s + 1) [(rafNext s, event)] s).
Proof.
  intros Hdrag Hstart (Hnext & Hhandle & Hqueue).
  unfold handlePointerMove. rewrite Hdrag.
  destruct (dragStartRef s) as [start|] eqn:Hs; [clear Hstart|congruence].
  cbn [negb orb].
  destruct (animationFrameRef s) as [h|] eqn:Href.
  - specialize (Hhandle h eq_refl).
    unfold truthyHandle.
    assert ((h =? 0)%Z = false) as -> by (apply Z.eqb_neq; lia).
    destruct Hqueue as [Hq | (h' & ev & Hh' & Hq)].
    + destruct s. unfold_state. subst. reflexivity.
    + assert (h' = h) as -> by congruence.
      destruct s. unfold_state. subst. cbn [filter fst].
      rewrite Z.eqb_refl. reflexivity.
  - destruct Hqueue as [Hq | (h' & ev & Hh' & Hq)]; [|congruence].
    destruct s. unfold_state. subst. reflexivity.
Qed.

Lemma handlePointerMove_coalesced (event : PointerEvent) (s : State) :
  queueCoalesced s -> queueCoalesced (handlePointerMove event s).
Proof.
  intros Hwf.
  destruct (isDragging s) eqn:Hdrag.
  - destruct (dragStartRef s) as [start|] eqn:Hs.
    + rewrite handlePointerMove_dragging by (assumption || congruence).
      destruct Hwf as (Hnext & _ & _). unfold queueCoalesced. unfold_state.
      split; [lia|]. split.
      * intros h Hh. injection Hh as <-. lia.
      * right. now exists (rafNext s), event.
    + unfold handlePointerMove. rewrite Hdrag, Hs. exact Hwf.
  - unfold handlePointerMove. rewrite Hdrag. exact Hwf.
Qed.

(** A burst of moves ending with [last] leaves one waiting callback, the
    one of [last]. *)
Lemma handlePointerMoves_last
      (earlier : list PointerEvent) (last : PointerEvent) :
  forall s : State,
    isDragging s = true ->
    dragStartRef s <> None ->
    queueCoalesced s ->
    exists handle : Z,
      handlePointerMoves (earlier ++ [last]) s
      = with_animationFrameRef (Some handle)
          (with_raf (handle + 1) [(handle, last)] s).
Proof.
  induction earlier as [|first earlier IH]; intros s Hdrag Hstart Hwf.
  - exists (rafNext s). cbn. now apply handlePointerMove_dragging.
  - cbn [app handlePointerMoves fold_left].
    fold (handlePointerMoves (earlier ++ [last]) (handlePointerMove first s)).
    pose proof (handlePointerMove_coalesced first s Hwf) as Hwf1.
    rewrite (handlePointerMove_dragging first s Hdrag Hstart Hwf) in *.
    destruct (IH (with_animationFrameRef (Some (rafNext s))
                    (with_raf (rafNext s + 1) [(rafNext s, first)] s))
                 Hdrag Hstart Hwf1) as (handle & Heq).
    exists handle. rewrite Heq. reflexivity.
Qed.

(** The frame that follows runs that one callback. *)
Lemma runAnimationFrame_single
      (props : UseOrbitalMenuProps) (innerWidth innerHeight : R)
      (handle next : Z) (event : PointerEvent) (s : State) :
  runAnimationFrame props innerWidth innerHeight
    (with_animationFrameRef (Some handle)
       (with_raf next [(handle, event)] s))
  = frameCallback props innerWidth innerHeight event
      (with_animationFrameRef (Some handle) (with_raf next [] s)).
Proof. reflexivity. Qed.

(** C7. Pointer-moves that arrive while dragging, with no frame in between,
    leave one waiting callback, the one of the last move; the next frame
    runs that callback only, so the button position is recomputed once,
    from the coordinates of the last move: each axis is the pointer
    coordinate of the last move minus the grab offset, clamped into
    [[buttonSize / 2 + padding, extent - buttonSize / 2 - padding]]. *)
Theorem pointerMoves_coalesce
        (props : UseOrbitalMenuProps) (s : State)
        (earlier : list PointerEvent) (last : PointerEvent)
        (innerWidth innerHeight : R) :
  isDragging s = true ->
  dragStartRef s <> None ->
  queueCoalesced s ->
  let s' := handlePointerMoves (earlier ++ [last]) s in
  (exists handle : Z,
      animationFrameRef s' = Some handle /\ rafQueue s' = [(handle, last)])
  /\ runAnimationFrame props innerWidth innerHeight s'
     = frameCallback props innerWidth innerHeight last
         (with_raf (rafNext s') [] s')
  /\ buttonPosition (runAnimationFrame props innerWidth innerHeight s')
     = mkPosition
         (clamp (buttonSize props / 2 + boundaryPadding props)
                (innerWidth - buttonSize props / 2 - boundaryPadding props)
                (clientX last - pos_x (dragOffsetRef s)))
         (clamp (buttonSize props / 2 + boundaryPadding props)
                (innerHeight - buttonSize props / 2 - boundaryPadding props)
                (clientY last - pos_y (dragOffsetRef s)))
  /\ rafQueue (runAnimationFrame props innerWidth innerHeight s') = [].
Proof.
  intros Hdrag Hstart Hwf s'.
  destruct (handlePointerMoves_last earlier last s Hdrag Hstart Hwf)
    as (handle & Heq).
  subst s'. rewrite Heq.
  split; [now exists handle|].
  rewrite runAnimationFrame_single.
  split; [reflexivity|]. split; reflexivity.
Qed.

Lemma idle_coalesced : queueCoalesced idle.
Proof.
  split; [reflexivity|].
  split; [intros h Hh; discriminate Hh | left; reflexivity].
Qed.

Lemma grabbed_coalesced : queueCoalesced grabbed.
Proof. exact idle_coalesced. Qed.

Lemma candidateCenter_grabbed (x y : R) :
  candidateCenter (pointerAt x y) grabbed = mkPosition x y.
Proof.
  unfold candidateCenter, grabbed, handlePointerDown, buttonRectAt, pointerAt.
  unfold_state.
  cbn [clientX clientY mouse rect_left rect_top rect_width rect_height
       pos_x pos_y].
  f_equal; lra.
Qed.

(** Three moves in one frame, the last one to (-50, 400): the frame puts
    the button at (35, 400), the clamp of the last move. *)
Lemma pointerMoves_coalesce_witness :
  let s' := handlePointerMoves
              [pointerAt 90 400; pointerAt 20 400; pointerAt (-50) 400]
              grabbed in
  buttonPosition (runAnimationFrame scenarioProps 1000 800 s')
  = mkPosition 35 400
  /\ rafQueue (runAnimationFrame scenarioProps 1000 800 s') = [].
Proof.
  intros s'.
  destruct (pointerMoves_coalesce scenarioProps grabbed
              [pointerAt 90 400; pointerAt 20 400] (pointerAt (-50) 400)
              1000 800 eq_refl ltac:(discriminate) grabbed_coalesced)
    as (_ & _ & Hpos & Hqueue).
  split; [|exact Hqueue].
  subst s'. refine (eq_trans Hpos _).
  pose proof (candidateCenter_grabbed (-50) 400) as Hcand.
  assert (clientX (pointerAt (-50) 400) - pos_x (dragOffsetRef grabbed) = -50)
    as -> by exact (f_equal pos_x Hcand).
  assert (clientY (pointerAt (-50) 400) - pos_y (dragOffsetRef grabbed) = 400)
    as -> by exact (f_equal pos_y Hcand).
  cbn [scenarioProps defaultProps buttonSize boundaryPadding].
  unfold DEFAULT_BUTTON_SIZE, DEFAULT_BOUNDARY_PADDING.
  rewrite clamp_below by lra. rewrite clamp_inside by lra.
  f_equal. lra.
Defined.

(** C5. The frame after a pointer-move sets the button position to the
    candidate centre (pointer minus grab offset) with each axis clamped into
    [[halfButton + padding, extent - halfButton - padding]]; in a 1000x800
    viewport with padding 10 and a 50px button the candidate (-50, 400)
    becomes (35, 400). *)
Theorem pointerMove_clamps_to_viewport
        (props : UseOrbitalMenuProps) (s : State) (event : PointerEvent)
        (innerWidth innerHeight : R) :
  isDragging s = true ->
  dragStartRef s <> None ->
  queueCoalesced s ->
  let s' := runAnimationFrame props innerWidth innerHeight
                              (handlePointerMove event s) in
  buttonPosition s'
  = mkPosition
      (clamp (buttonSize props / 2 + boundaryPadding props)
             (innerWidth - buttonSize props / 2 - boundaryPadding props)
             (clientX event - pos_x (dragOffsetRef s)))
      (clamp (buttonSize props / 2 + boundaryPadding props)
             (innerHeight - buttonSize props / 2 - boundaryPadding props)
             (clientY event - pos_y (dragOffsetRef s)))
  /\ (innerWidth = 1000 -> innerHeight = 800 ->
      boundaryPadding props = 10 -> buttonSize props = 50 ->
      candidateCenter event s = mkPosition (-50) 400 ->
      buttonPosition s' = mkPosition 35 400).
Proof.
  intros Hdrag Hstart Hwf s'.
  assert (buttonPosition s'
          = clampToViewport props innerWidth innerHeight
                            (candidateCenter event s)) as Hpos.
  { subst s'. rewrite handlePointerMove_dragging by assumption.
    now rewrite runAnimationFrame_single. }
  split; [exact Hpos|].
  intros -> -> Hpad Hsize Hcand. rewrite Hpos, Hcand.
  unfold clampToViewport, minX, maxX, minY, maxY, halfButton.
  rewrite Hpad, Hsize. cbn [pos_x pos_y].
  rewrite clamp_below by lra. rewrite clamp_inside by lra.
  f_equal. lra.
Qed.

Lemma pointerMove_clamps_to_viewport_witness :
  buttonPosition
    (runAnimationFrame scenarioProps 1000 800
                       (handlePointerMove (pointerAt (-50) 400) grabbed))
  = mkPosition 35 400.
Proof.
  apply (proj2 (pointerMove_clamps_to_viewport
                  scenarioProps grabbed (pointerAt (-50) 400) 1000 800
                  eq_refl ltac:(discriminate) grabbed_coalesced));
    try reflexivity.
  apply candidateCenter_grabbed.
Defined.

(** ** Pointer-up *)

(** C9. A pointer-up or pointer-cancel that arrives while [isDragging] is
    false returns at once: the state is left as it was. *)
Theorem handlePointerUp_idle (now : Z) (event : PointerEvent) (s : State) :
  isDragging s = false -> handlePointerUp now event s = s.
Proof.
  intros Hidle. unfold handlePointerUp. now rewrite Hidle.
Qed.

Lemma handlePointerUp_idle_witness :
  handlePointerUp someDateNow (pointerAt 100 400) idle = idle.
Proof.
  apply handlePointerUp_idle. reflexivity.
Defined.

(** Pointer-up never touches [isOpen]: only [handleClick] and [toggleMenu]
    do. *)
Lemma handlePointerUp_isOpen (now : Z) (event : PointerEvent) (s : State) :
  isOpen (handlePointerUp now event s) = isOpen s.
Proof.
  unfold handlePointerUp.
  destruct (isDragging s); cbn [negb]; [|reflexivity].
  destruct (isClickGesture _ _);
    destruct (truthyHandle (animationFrameRef s)); reflexivity.
Qed.

(** ** Click *)

Lemma distanceMoved_no_session (event : MouseEvent) :
  distanceMoved None event = 0.
Proof. reflexivity. Qed.

(** Without a recorded start point the distance test always passes, and the
    click handler decides on the time since the last pointer-down alone. *)
Lemma handleClick_no_session (now : Z) (event : MouseEvent) (s : State) :
  dragStartRef s = None ->
  handleClick now event s
  = if (now - dragStartTimeRef s <? CLICK_THRESHOLD_MS)%Z
    then setIsOpen negb s
    else s.
Proof.
  intros Hnone. unfold handleClick, isClickGesture. rewrite Hnone.
  rewrite distanceMoved_no_session.
  rewrite (Rltb_true 0 CLICK_THRESHOLD_PX) by (unfold CLICK_THRESHOLD_PX; lra).
  now rewrite andb_true_r.
Qed.

(** A click 200ms or more after the last recorded pointer-down is ignored,
    wherever it comes from. *)
Lemma handleClick_stale (now : Z) (event : MouseEvent) (s : State) :
  (CLICK_THRESHOLD_MS <= now - dragStartTimeRef s)%Z ->
  handleClick now event s = s.
Proof.
  intros Hlate. unfold handleClick, isClickGesture.
  assert ((now - dragStartTimeRef s <? CLICK_THRESHOLD_MS)%Z = false) as ->
      by (apply Z.ltb_ge; exact Hlate).
  reflexivity.
Qed.

Section ControllerFacts.

Variable props : UseOrbitalMenuProps.

(** The effect writes [itemPositions] and nothing else the handlers read. *)
Lemma flushEffects_isOpen (s : State) :
  isOpen (flushEffects props s) = isOpen s.
Proof.
  unfold flushEffects, itemPositionsEffect.
  destruct (effectDue s), (isOpen s) eqn:Ho; cbn; congruence.
Qed.

Lemma flushEffects_session (s : State) :
  isDragging (flushEffects props s) = isDragging s
  /\ dragStartRef (flushEffects props s) = dragStartRef s
  /\ dragStartTimeRef (flushEffects props s) = dragStartTimeRef s
  /\ animationFrameRef (flushEffects props s) = animationFrameRef s.
Proof.
  unfold flushEffects, itemPositionsEffect.
  destruct (effectDue s), (isOpen s); repeat split; reflexivity.
Qed.

Lemma flushEffects_idle (s : State) :
  effectDue s = false -> flushEffects props s = s.
Proof. intros Hdue. unfold flushEffects. now rewrite Hdue. Qed.

(** After pointer-down and pointer-up the start point is gone and the start
    time is that of the pointer-down. *)
Lemma press_release_session
      (t0 t1 : Z) (rect : option DOMRect) (e0 e1 : PointerEvent) (s : State) :
  let s2 := run props [PointerDown t0 rect e0; PointerUp t1 e1] s in
  dragStartRef s2 = None
  /\ dragStartTimeRef s2 = t0
  /\ isDragging s2 = false
  /\ isOpen s2 = isOpen s.
Proof.
  cbn [run fold_left]. unfold dispatch. cbn [handle].
  set (s1 := flushEffects props (handlePointerDown t0 rect e0 s)).
  assert (isDragging s1 = true /\ dragStartTimeRef s1 = t0
          /\ isOpen s1 = isOpen s) as (Hdrag & Htime & Hopen).
  { subst s1. destruct (flushEffects_session (handlePointerDown t0 rect e0 s))
      as (-> & _ & -> & _).
    rewrite flushEffects_isOpen. destruct rect; repeat split; reflexivity. }
  destruct (flushEffects_session (handlePointerUp t1 e1 s1))
    as (-> & -> & -> & _).
  rewrite flushEffects_isOpen, handlePointerUp_isOpen, Hopen.
  unfold handlePointerUp. rewrite Hdrag. cbn [negb].
  destruct (isClickGesture _ _);
    destruct (truthyHandle (animationFrameRef s1));
    repeat split; assumption || reflexivity.
Qed.

(** What a press, a release and the click that follows do to [isOpen]: the
    release has cleared the start point, so only the time between the press
    and the click counts. *)
Lemma press_release_click_isOpen
      (t0 t1 t2 : Z) (rect : option DOMRect) (e0 e1 : PointerEvent)
      (click : MouseEvent) (s : State) :
  isOpen (run props [PointerDown t0 rect e0; PointerUp t1 e1; Click t2 click] s)
  = if (t2 - t0 <? CLICK_THRESHOLD_MS)%Z then negb (isOpen s) else isOpen s.
Proof.
  change (run props [PointerDown t0 rect e0; PointerUp t1 e1; Click t2 click] s)
    with (dispatch props (Click t2 click)
            (run props [PointerDown t0 rect e0; PointerUp t1 e1] s)).
  destruct (press_release_session t0 t1 rect e0 e1 s)
    as (Hstart & Htime & _ & Hopen).
  set (s2 := run props [PointerDown t0 rect e0; PointerUp t1 e1] s) in *.
  unfold dispatch. cbn [handle].
  rewrite flushEffects_isOpen, handleClick_no_session by exact Hstart.
  rewrite Htime.
  destruct (t2 - t0 <? CLICK_THRESHOLD_MS)%Z; [|exact Hopen].
  unfold setIsOpen. unfold_state. now rewrite Hopen.
Qed.

End ControllerFacts.

(** C1, at its own example.  Press at t=0 on (100, 100), release and click
    at t=50ms on (140, 100): the click point is 40px from the start point,
    over the 5px threshold, and yet the gesture toggles [isOpen].  The
    release set [dragStartRef.current] to [null] before the click handler
    ran, so the handler measured a distance of 0. *)
Theorem dragGesture_toggles :
  let before := flushEffects dragProps (mount dragProps) in
  let after := run dragProps dragGesture before in
  distanceMoved (Some (mkPosition 100 100)) (mkMouseEvent 140 100) = 40
  /\ CLICK_THRESHOLD_PX < 40
  /\ isOpen before = false
  /\ isOpen after = true.
Proof.
  intros before after. split; [|split; [|split]].
  - unfold distanceMoved. cbn [clientX clientY pos_x pos_y].
    replace ((140 - 100) ^ 2 + (100 - 100) ^ 2) with (40 * 40) by lra.
    apply sqrt_square. lra.
  - unfold CLICK_THRESHOLD_PX. lra.
  - reflexivity.
  - subst after. unfold dragGesture.
    rewrite press_release_click_isOpen. reflexivity.
Qed.

(** C2, at a keyboard activation of the freshly mounted button.  No
    pointer-down has happened, [dragStartTimeRef.current] still holds its
    initial 0, the duration is [Date.now() - 0], far over 200ms: the click
    handler leaves the state, and [isOpen], as they were. *)
Theorem keyboardClick_does_not_toggle :
  dispatch scenarioProps keyboardClick idle = idle
  /\ isOpen idle = false.
Proof.
  split; [|reflexivity].
  unfold dispatch, keyboardClick. cbn [handle].
  rewrite handleClick_stale.
  - apply flushEffects_idle. reflexivity.
  - change (dragStartTimeRef idle) with 0%Z.
    unfold CLICK_THRESHOLD_MS, someDateNow. lia.
Qed.

(** ** The item-positions effect *)

Section EffectFacts.

Variable props : UseOrbitalMenuProps.

Lemma itemsConsistent_fields (s s' : State) :
  isOpen s' = isOpen s ->
  buttonPosition s' = buttonPosition s ->
  itemPositions s' = itemPositions s ->
  itemsConsistent props s -> itemsConsistent props s'.
Proof.
  unfold itemsConsistent. intros -> -> ->. trivial.
Qed.

(** Once the effect has run the list is consistent. *)
Lemma itemPositionsEffect_consistent (s : State) :
  itemsConsistent props (with_effectDue false (itemPositionsEffect props s)).
Proof.
  unfold itemsConsistent, itemPositionsEffect.
  destruct (isOpen s) eqn:Ho; unfold_state; rewrite Ho.
  - split; [reflexivity | apply calculateItemPositions_length].
  - reflexivity.
Qed.

(** Frame callbacks mark the effect as due. *)
Lemma frameCallbacks_due (w h : R) (queue : list (Z * PointerEvent)) :
  forall s : State,
    effectDue s = true ->
    effectDue (fold_left (fun st cb => frameCallback props w h (snd cb) st)
                         queue s) = true.
Proof.
  induction queue as [|cb queue IH]; intros s Hdue; [exact Hdue|].
  cbn [fold_left]. apply IH. reflexivity.
Qed.

Lemma runAnimationFrame_not_due (w h : R) (s : State) :
  effectDue (runAnimationFrame props w h s) = false ->
  rafQueue s = [].
Proof.
  unfold runAnimationFrame. destruct (rafQueue s) as [|cb queue];
    [reflexivity|].
  cbn [fold_left]. rewrite frameCallbacks_due by reflexivity. discriminate.
Qed.

(** A handler that leaves the effect idle has not touched what the effect
    depends on. *)
Lemma handle_keeps_consistent (ev : Event) (s : State) :
  (effectDue s = false -> itemsConsistent props s) ->
  effectDue (handle props ev s) = false ->
  itemsConsistent props (handle props ev s).
Proof.
  intros IH.
  destruct ev as [now rect event | event | now event | now event
                 | forceState | w h]; cbn [handle].
  - destruct rect; exact IH.
  - unfold handlePointerMove.
    destruct (negb (isDragging s) || _); [exact IH|].
    destruct (truthyHandle (animationFrameRef s)); exact IH.
  - unfold handlePointerUp.
    destruct (negb (isDragging s)); [exact IH|].
    destruct (isClickGesture _ _);
      destruct (truthyHandle (animationFrameRef s)); exact IH.
  - unfold handleClick.
    destruct (isClickGesture _ _); [|exact IH].
    unfold setIsOpen. unfold_state.
    destruct (isOpen s), (effectDue s); discriminate.
  - unfold toggleMenu, setIsOpen. unfold_state.
    destruct forceState as [[|]|], (isOpen s) eqn:Ho, (effectDue s) eqn:Hd;
      cbn [negb orb Bool.eqb]; try discriminate;
      intros _; specialize (IH eq_refl);
      unfold itemsConsistent in *; unfold_state; rewrite Ho in *; exact IH.
  - intros Hdue. pose proof (runAnimationFrame_not_due w h s Hdue) as Hq.
    unfold runAnimationFrame in *. rewrite Hq in *. cbn [fold_left] in *.
    exact (IH Hdue).
Qed.

Lemma rendered_consistent (s : State) :
  rendered props s -> effectDue s = false -> itemsConsistent props s.
Proof.
  induction 1 as [| ev s Hs IH | s Hs IH].
  - discriminate.
  - now apply handle_keeps_consistent.
  - unfold flushEffects. destruct (effectDue s) eqn:Hdue.
    + intros _. apply itemPositionsEffect_consistent.
    + intros _. exact (IH eq_refl).
Qed.

Lemma flushEffects_not_due (s : State) :
  effectDue (flushEffects props s) = false.
Proof.
  unfold flushEffects, itemPositionsEffect.
  destruct (effectDue s) eqn:Hdue; [|exact Hdue].
  destruct (isOpen s); reflexivity.
Qed.

Lemma settled_rendered (s : State) : settled props s -> rendered props s.
Proof.
  induction 1 as [| ev s Hs IH].
  - apply rendered_effect, rendered_mount.
  - apply rendered_effect, rendered_handle, IH.
Qed.

Lemma settled_not_due (s : State) : settled props s -> effectDue s = false.
Proof.
  destruct 1; apply flushEffects_not_due.
Qed.

(** Every render keeps the frame queue coalesced. *)
Lemma rendered_coalesced (s : State) :
  rendered props s -> queueCoalesced s.
Proof.
  induction 1 as [| ev s Hs IH | s Hs IH].
  - split; [reflexivity|].
    split; [intros h Hh; discriminate Hh | left; reflexivity].
  - destruct ev as [now rect event | event | now event | now event
                   | forceState | w h]; cbn [handle].
    + destruct rect; exact IH.
    + now apply handlePointerMove_coalesced.
    + unfold handlePointerUp.
      destruct (negb (isDragging s)); [exact IH|].
      destruct IH as (Hnext & Hhandle & Hqueue).
      destruct (animationFrameRef s) as [h0|] eqn:Href; unfold truthyHandle.
      * specialize (Hhandle h0 eq_refl).
        assert ((h0 =? 0)%Z = false) as -> by (apply Z.eqb_neq; lia).
        destruct (isClickGesture _ _);
          (split; [exact Hnext|];
           split; [intros h Hh; discriminate Hh|];
           left; unfold_state;
           destruct Hqueue as [-> | (h' & ev & Hh' & ->)]; [reflexivity|];
           assert (h' = h0) as -> by congruence;
           cbn [filter fst]; now rewrite Z.eqb_refl).
      * destruct (isClickGesture _ _);
          (split; [exact Hnext|];
           split; [intros h Hh; unfold_state; congruence|];
           destruct Hqueue as [Hq | (h' & ev & Hh' & _)];
           [left; exact Hq | congruence]).
    + unfold handleClick. destruct (isClickGesture _ _); exact IH.
    + exact IH.
    + destruct IH as (Hnext & Hhandle & Hqueue).
      assert (forall (queue : list (Z * PointerEvent)) (st : State),
                 rafNext (fold_left
                            (fun st cb => frameCallback props w h (snd cb) st)
                            queue st) = rafNext st
                 /\ animationFrameRef
                      (fold_left
                         (fun st cb => frameCallback props w h (snd cb) st)
                         queue st) = animationFrameRef st
                 /\ rafQueue
                      (fold_left
                         (fun st cb => frameCallback props w h (snd cb) st)
                         queue st) = rafQueue st) as Hfold.
      { induction queue as [|cb queue IHq]; intros st;
          [repeat split|].
        cbn [fold_left]. destruct (IHq (frameCallback props w h (snd cb) st))
          as (-> & -> & ->). repeat split. }
      unfold runAnimationFrame.
      destruct (Hfold (rafQueue s) (with_raf (rafNext s) [] s))
        as (Hn & Hr & Hq).
      unfold queueCoalesced. rewrite Hn, Hr, Hq.
      split; [exact Hnext|]. split; [exact Hhandle | left; reflexivity].
  - unfold flushEffects, itemPositionsEffect.
    destruct (effectDue s); [|exact IH].
    destruct (isOpen s); exact IH.
Qed.

(** C8, for the states in which React is idle.  Whenever React is idle (mounted, or after an event, its
    render and the effect that follows), the satellite list is empty if the
    menu is closed and is the layout of [itemCount] entries around the
    current button position if it is open. *)
Theorem settled_itemsConsistent (s : State) :
  settled props s -> itemsConsistent props s.
Proof.
  intros Hs. apply rendered_consistent.
  - now apply settled_rendered.
  - now apply settled_not_due.
Qed.

End EffectFacts.

Lemma settled_itemsConsistent_witness :
  let s := dispatch scenarioProps (ToggleMenu None) idle in
  isOpen s = true
  /\ itemPositions s = calculateItemPositions scenarioProps 100 (800 / 2)
  /\ length (itemPositions s) = 4%nat.
Proof.
  intros s.
  assert (settled scenarioProps s) as Hs
      by (apply settled_dispatch, settled_mount).
  pose proof (settled_itemsConsistent scenarioProps s Hs) as Hc.
  split; [reflexivity | exact Hc].
Defined.

(** C8 as stated fails on the render that follows a toggle: [isOpen] is
    already true, the satellite list is still the empty list of the closed
    menu; the effect fills it in afterwards, in a second update.  Closing
    the menu is first rendered with the four items still in the list. *)
Lemma toggle_renders_stale_items :
  let opening := toggleMenu None idle in
  let closing := toggleMenu None (flushEffects scenarioProps opening) in
  rendered scenarioProps opening
  /\ isOpen opening = true
  /\ itemPositions opening = []
  /\ ~ itemsConsistent scenarioProps opening
  /\ rendered scenarioProps closing
  /\ isOpen closing = false
  /\ length (itemPositions closing) = 4%nat
  /\ ~ itemsConsistent scenarioProps closing.
Proof.
  intros opening closing.
  assert (rendered scenarioProps opening) as Hopening.
  { apply (rendered_handle scenarioProps (ToggleMenu None)).
    apply rendered_effect, rendered_mount. }
  assert (rendered scenarioProps closing) as Hclosing.
  { apply (rendered_handle scenarioProps (ToggleMenu None)).
    apply rendered_effect, Hopening. }
  assert (length (itemPositions closing) = 4%nat) as Hlen.
  { change (itemPositions closing)
      with (calculateItemPositions scenarioProps
              (pos_x (initialPosition scenarioProps))
              (pos_y (initialPosition scenarioProps))).
    now rewrite calculateItemPositions_length. }
  split; [exact Hopening|].
  split; [reflexivity|]. split; [reflexivity|].
  split.
  { intros [_ Hbad]. discriminate Hbad. }
  split; [exact Hclosing|]. split; [reflexivity|]. split; [exact Hlen|].
  intros Hbad. change (itemPositions closing = []) in Hbad.
  rewrite Hbad in Hlen. discriminate Hlen.
Qed.

(** * Further properties *)

(** ** The gesture as a whole *)

Section GestureFacts.

Variable props : UseOrbitalMenuProps.

(** Frame callbacks write [buttonPosition] and mark the effect; every other
    field is left alone. *)
Lemma frameCallbacks_fields (w h : R) (queue : list (Z * PointerEvent)) :
  forall st : State,
    let st' := fold_left (fun st cb => frameCallback props w h (snd cb) st)
                         queue st in
    isOpen st' = isOpen st
    /\ itemPositions st' = itemPositions st
    /\ isDragging st' = isDragging st
    /\ dragStartRef st' = dragStartRef st
    /\ dragOffsetRef st' = dragOffsetRef st
    /\ rafQueue st' = rafQueue st.
Proof.
  induction queue as [|cb queue IH]; intros st; [repeat split|].
  cbn [fold_left].
  destruct (IH (frameCallback props w h (snd cb) st))
    as (-> & -> & -> & -> & -> & ->).
  repeat split.
Qed.

Lemma runAnimationFrame_fields (w h : R) (s : State) :
  isOpen (runAnimationFrame props w h s) = isOpen s
  /\ itemPositions (runAnimationFrame props w h s) = itemPositions s
  /\ isDragging (runAnimationFrame props w h s) = isDragging s
  /\ dragStartRef (runAnimationFrame props w h s) = dragStartRef s
  /\ dragOffsetRef (runAnimationFrame props w h s) = dragOffsetRef s
  /\ rafQueue (runAnimationFrame props w h s) = [].
Proof.
  unfold runAnimationFrame.
  destruct (frameCallbacks_fields w h (rafQueue s) (with_raf (rafNext s) [] s))
    as (-> & -> & -> & -> & -> & ->).
  repeat split.
Qed.

(** With nothing waiting, a frame changes nothing. *)
Lemma runAnimationFrame_empty (w h : R) (s : State) :
  rafQueue s = [] -> runAnimationFrame props w h s = s.
Proof.
  intros Hq. unfold runAnimationFrame. rewrite Hq. cbn [fold_left].
  destruct s. unfold_state. now subst.
Qed.

(** Pointer-up while dragging, on a coalesced queue: the session is closed
    and nothing is left waiting. *)
Lemma handlePointerUp_dragging (now : Z) (event : PointerEvent) (s : State) :
  isDragging s = true ->
  queueCoalesced s ->
  handlePointerUp now event s
  = with_dragStartRef None
      (setIsDragging false
         (with_animationFrameRef None (with_raf (rafNext s) [] s))).
Proof.
  intros Hdrag (Hnext & Hhandle & Hqueue).
  unfold handlePointerUp. rewrite Hdrag. cbn [negb].
  destruct (animationFrameRef s) as [h|] eqn:Href; unfold truthyHandle.
  - specialize (Hhandle h eq_refl).
    assert ((h =? 0)%Z = false) as -> by (apply Z.eqb_neq; lia).
    destruct (isClickGesture _ _);
      (destruct Hqueue as [Hq | (h' & ev & Hh' & Hq)];
       [ destruct s; unfold_state; subst; reflexivity
       | assert (h' = h) as -> by congruence;
         destruct s; unfold_state; subst; cbn [filter fst];
         rewrite Z.eqb_refl; reflexivity ]).
  - destruct (isClickGesture _ _);
      (destruct Hqueue as [Hq | (h' & ev & Hh' & Hq)]; [|congruence];
       destruct s; unfold_state; subst; reflexivity).
Qed.

Lemma rendered_session_invariant (s : State) :
  rendered props s ->
  if isDragging s
  then dragStartRef s <> None
  else dragStartRef s = None /\ rafQueue s = [].
Proof.
  intros Hr. pose proof (rendered_coalesced props s Hr) as Hwf.
  revert Hwf.
  induction Hr as [| ev s Hs IH | s Hs IH]; intros Hwf.
  - cbn. split; reflexivity.
  - pose proof (rendered_coalesced props s Hs) as Hwf0.
    specialize (IH Hwf0).
    destruct ev as [now rect event | event | now event | now event
                   | forceState | w h]; cbn [handle] in *.
    + destruct rect; cbn; discriminate.
    + destruct (isDragging s) eqn:Hdrag.
      * rewrite handlePointerMove_dragging by assumption.
        unfold_state. now rewrite Hdrag.
      * unfold handlePointerMove. rewrite Hdrag. cbn [negb orb].
        now rewrite Hdrag.
    + destruct (isDragging s) eqn:Hdrag.
      * rewrite handlePointerUp_dragging by assumption.
        unfold_state. split; reflexivity.
      * unfold handlePointerUp. rewrite Hdrag. cbn [negb].
        now rewrite Hdrag.
    + unfold handleClick. destruct (isClickGesture _ _); exact IH.
    + exact IH.
    + destruct (runAnimationFrame_fields w h s) as (_ & _ & -> & -> & _ & ->).
      destruct (isDragging s); [exact IH | split; [apply IH | reflexivity]].
  - unfold flushEffects, itemPositionsEffect in *.
    pose proof (rendered_coalesced props s Hs) as Hwf0.
    specialize (IH Hwf0).
    destruct (effectDue s); [|exact IH].
    destruct (isOpen s); exact IH.
Qed.

(** In every render a gesture session exists exactly while [isDragging] is
    true, and outside a drag no position update is waiting for a frame. *)
Theorem session_while_dragging (s : State) :
  rendered props s ->
  if isDragging s
  then dragStartRef s <> None
  else dragStartRef s = None /\ rafQueue s = [].
Proof. exact (rendered_session_invariant s). Qed.

Lemma handlePointerMoves_idle (events : list PointerEvent) (s : State) :
  isDragging s = false -> handlePointerMoves events s = s.
Proof.
  intros Hidle. induction events as [|event events IH]; [reflexivity|].
  cbn [handlePointerMoves fold_left].
  assert (handlePointerMove event s = s) as ->
      by (unfold handlePointerMove; now rewrite Hidle).
  exact IH.
Qed.

(** Pointer-up ends the drag for good: whatever was scheduled is cancelled,
    so the moves and the frame that follow the release leave the state, the
    button position included, as the release left it. *)
Theorem release_stops_the_button
        (s : State) (now : Z) (event : PointerEvent)
        (later : list PointerEvent) (w h : R) :
  rendered props s ->
  let released := handlePointerUp now event s in
  isDragging released = false
  /\ buttonPosition released = buttonPosition s
  /\ runAnimationFrame props w h (handlePointerMoves later released)
     = released.
Proof.
  intros Hr released.
  assert (rendered props released) as Hreleased
      by (apply (rendered_handle props (PointerUp now event)), Hr).
  assert (isDragging released = false) as Hidle.
  { subst released. unfold handlePointerUp.
    destruct (isDragging s) eqn:Hdrag; cbn [negb]; [|exact Hdrag].
    destruct (isClickGesture _ _);
      destruct (truthyHandle (animationFrameRef s)); reflexivity. }
  split; [exact Hidle|]. split.
  - subst released. unfold handlePointerUp.
    destruct (isDragging s); cbn [negb]; [|reflexivity].
    destruct (isClickGesture _ _);
      destruct (truthyHandle (animationFrameRef s)); reflexivity.
  - rewrite handlePointerMoves_idle by exact Hidle.
    apply runAnimationFrame_empty.
    pose proof (rendered_session_invariant released Hreleased) as Hsession.
    rewrite Hidle in Hsession. apply Hsession.
Qed.

End GestureFacts.

Lemma grabbed_rendered : rendered scenarioProps grabbed.
Proof.
  apply (rendered_handle scenarioProps
           (PointerDown 0 (Some (buttonRectAt 100 400)) (pointerAt 100 400))).
  apply rendered_effect, rendered_mount.
Qed.

Lemma session_while_dragging_witness : dragStartRef grabbed <> None.
Proof.
  exact (session_while_dragging scenarioProps grabbed grabbed_rendered).
Defined.

Lemma release_stops_the_button_witness :
  let moved := handlePointerMove (pointerAt 300 400) grabbed in
  let released := handlePointerUp 400 (pointerAt 300 400) moved in
  isDragging released = false
  /\ buttonPosition released = buttonPosition moved
  /\ runAnimationFrame scenarioProps 1000 800
       (handlePointerMoves [pointerAt 500 400] released)
     = released.
Proof.
  intros moved released.
  apply (release_stops_the_button scenarioProps moved 400 (pointerAt 300 400)
           [pointerAt 500 400] 1000 800).
  apply (rendered_handle scenarioProps (PointerMove (pointerAt 300 400))).
  exact grabbed_rendered.
Defined.

(** ** Dragging *)

Lemma clamp_empty_interval (lo hi v : R) : hi < lo -> clamp lo hi v = lo.
Proof.
  intros Hempty. unfold clamp. apply Rmax_left.
  pose proof (Rmin_r v hi). lra.
Qed.

Section DragFacts.

Variable props : UseOrbitalMenuProps.


(** In a window narrower (or lower) than the button and its two paddings
    the clamp interval is empty and [Math.max] wins: every frame callback
    pins that axis of the button at [buttonSize / 2 + boundaryPadding]. *)
Theorem narrow_viewport_pins_button
        (w h : R) (event : PointerEvent) (s : State) :
  (w < buttonSize props + 2 * boundaryPadding props ->
   pos_x (buttonPosition (frameCallback props w h event s))
   = buttonSize props / 2 + boundaryPadding props)
  /\ (h < buttonSize props + 2 * boundaryPadding props ->
      pos_y (buttonPosition (frameCallback props w h event s))
      = buttonSize props / 2 + boundaryPadding props).
Proof.
  unfold frameCallback, setButtonPosition, clampToViewport. unfold_state.
  cbn [pos_x pos_y]. unfold minX, maxX, minY, maxY, halfButton.
  split; intros Hnarrow; apply clamp_empty_interval; lra.
Qed.

Lemma frameCallbacks_inPaddedViewport
      (w h : R) (queue : list (Z * PointerEvent)) :
  minX props <= maxX props w ->
  minY props <= maxY props h ->
  forall st : State,
    inPaddedViewport props w h (buttonPosition st) ->
    inPaddedViewport props w h
      (buttonPosition
         (fold_left (fun st cb => frameCallback props w h (snd cb) st)
                    queue st)).
Proof.
  intros HX HY.
  induction queue as [|cb queue IH]; intros st Hin; [exact Hin|].
  cbn [fold_left]. apply IH.
  unfold frameCallback, setButtonPosition, clampToViewport, inPaddedViewport.
  unfold_state. cbn [pos_x pos_y]. split; now apply clamp_in_range.
Qed.

Lemma flushEffects_buttonPosition (s : State) :
  buttonPosition (flushEffects props s) = buttonPosition s.
Proof.
  unfold flushEffects, itemPositionsEffect.
  destruct (effectDue s), (isOpen s); reflexivity.
Qed.

(** Only an animation frame writes [buttonPosition]. *)
Lemma handle_buttonPosition (ev : Event) (s : State) :
  isFrame ev = false ->
  buttonPosition (handle props ev s) = buttonPosition s.
Proof.
  destruct ev as [now rect event | event | now event | now event
                 | forceState | w h]; cbn [handle isFrame]; intros Hev.
  - destruct rect; reflexivity.
  - unfold handlePointerMove. destruct (negb (isDragging s) || _);
      [reflexivity|].
    destruct (truthyHandle (animationFrameRef s)); reflexivity.
  - unfold handlePointerUp. destruct (negb (isDragging s)); [reflexivity|].
    destruct (isClickGesture _ _);
      destruct (truthyHandle (animationFrameRef s)); reflexivity.
  - unfold handleClick. destruct (isClickGesture _ _); reflexivity.
  - reflexivity.
  - discriminate.
Qed.

Lemma run_keeps_inPaddedViewport (w h : R) (events : list Event) :
  minX props <= maxX props w ->
  minY props <= maxY props h ->
  Forall (frameOf w h) events ->
  forall s : State,
    inPaddedViewport props w h (buttonPosition s) ->
    inPaddedViewport props w h (buttonPosition (run props events s)).
Proof.
  intros HX HY Hframes.
  induction Hframes as [|ev events Hev _ IH]; intros s Hin; [exact Hin|].
  cbn [run fold_left]. apply IH. unfold dispatch.
  rewrite flushEffects_buttonPosition.
  destruct (isFrame ev) eqn:Hkind.
  - destruct ev; try discriminate. cbn [frameOf] in Hev.
    destruct Hev as [-> ->]. cbn [handle]. unfold runAnimationFrame.
    now apply frameCallbacks_inPaddedViewport.
  - now rewrite handle_buttonPosition.
Qed.

(** While the window keeps its size and can hold the button with its
    padding, a button that is inside the padded viewport stays inside it,
    whatever events arrive. *)
Theorem button_stays_in_viewport
        (w h : R) (events : list Event) (s : State) :
  minX props <= maxX props w ->
  minY props <= maxY props h ->
  Forall (frameOf w h) events ->
  inPaddedViewport props w h (buttonPosition s) ->
  inPaddedViewport props w h (buttonPosition (run props events s)).
Proof.
  intros HX HY Hframes Hin.
  exact (run_keeps_inPaddedViewport w h events HX HY Hframes s Hin).
Qed.

(** The button moves in animation frames only: no other event changes its
    position. *)
Theorem button_moves_in_frames_only (events : list Event) :
  Forall (fun ev => isFrame ev = false) events ->
  forall s : State,
    buttonPosition (run props events s) = buttonPosition s.
Proof.
  induction 1 as [|ev events Hev _ IH]; intros s; [reflexivity|].
  change (run props (ev :: events) s)
    with (run props events (dispatch props ev s)).
  rewrite IH. unfold dispatch.
  rewrite flushEffects_buttonPosition. now apply handle_buttonPosition.
Qed.

(** Pointer events and frames never open or close the menu: [isOpen]
    changes on a click or a call of [toggleMenu] only. *)
Theorem menu_toggles_on_activation_only (events : list Event) :
  Forall (fun ev => isActivation ev = false) events ->
  forall s : State,
    isOpen (run props events s) = isOpen s.
Proof.
  induction 1 as [|ev events Hev _ IH]; intros s; [reflexivity|].
  change (run props (ev :: events) s)
    with (run props events (dispatch props ev s)).
  rewrite IH. unfold dispatch.
  rewrite flushEffects_isOpen.
  destruct ev as [now rect event | event | now event | now event
                 | forceState | w h]; cbn [handle isActivation] in *;
    try discriminate.
  - destruct rect; reflexivity.
  - unfold handlePointerMove. destruct (negb (isDragging s) || _);
      [reflexivity|].
    destruct (truthyHandle (animationFrameRef s)); reflexivity.
  - apply handlePointerUp_isOpen.
  - apply runAnimationFrame_fields.
Qed.

End DragFacts.

Lemma idle_inPaddedViewport :
  minX scenarioProps <= maxX scenarioProps 1000
  /\ minY scenarioProps <= maxY scenarioProps 800
  /\ inPaddedViewport scenarioProps 1000 800 (buttonPosition idle).
Proof.
  destruct (defaultProps_bounds 4 800 1000 800) as (Hx0 & Hx1 & Hy0 & Hy1).
  unfold inPaddedViewport, scenarioProps.
  rewrite Hx0, Hx1, Hy0, Hy1.
  change (buttonPosition idle) with (mkPosition 100 (800 / 2)).
  cbn [pos_x pos_y]. lra.
Qed.

(** A drag across the left edge of a 1000x800 window. *)
Lemma button_stays_in_viewport_witness :
  inPaddedViewport scenarioProps 1000 800
    (buttonPosition
       (run scenarioProps
            [ PointerDown 0 (Some (buttonRectAt 100 400)) (pointerAt 100 400);
              PointerMove (pointerAt (-50) 400);
              AnimationFrame 1000 800;
              PointerUp 300 (pointerAt (-50) 400) ]
            idle)).
Proof.
  destruct idle_inPaddedViewport as (HX & HY & Hin).
  apply button_stays_in_viewport; try assumption.
  repeat constructor.
Defined.

Lemma button_moves_in_frames_only_witness :
  buttonPosition
    (run scenarioProps
         [ PointerDown 0 (Some (buttonRectAt 100 400)) (pointerAt 100 400);
           PointerMove (pointerAt 300 400);
           PointerUp 300 (pointerAt 300 400);
           ToggleMenu None ]
         idle)
  = buttonPosition idle.
Proof.
  apply button_moves_in_frames_only. repeat constructor.
Defined.

Lemma menu_toggles_on_activation_only_witness :
  isOpen
    (run scenarioProps
         [ PointerDown 0 (Some (buttonRectAt 100 400)) (pointerAt 100 400);
           PointerMove (pointerAt 300 400);
           AnimationFrame 1000 800;
           PointerUp 300 (pointerAt 300 400) ]
         idle)
  = isOpen idle.
Proof.
  apply menu_toggles_on_activation_only. repeat constructor.
Defined.


Lemma narrow_viewport_pins_button_witness :
  pos_x (buttonPosition
           (frameCallback scenarioProps 60 800 (pointerAt 40 400) grabbed))
  = 50 / 2 + 10.
Proof.
  apply (proj1 (narrow_viewport_pins_button scenarioProps 60 800
                  (pointerAt 40 400) grabbed)).
  cbn [scenarioProps defaultProps buttonSize boundaryPadding].
  unfold DEFAULT_BUTTON_SIZE, DEFAULT_BOUNDARY_PADDING. lra.
Defined.

(** ** Click inside an open session *)




(** ** Toggling *)

Section ToggleFacts.

Variable props : UseOrbitalMenuProps.

Lemma settled_facts (s : State) :
  settled props s -> effectDue s = false /\ itemsConsistent props s.
Proof.
  intros Hs. split.
  - exact (settled_not_due props s Hs).
  - apply rendered_consistent.
    + exact (settled_rendered props s Hs).
    + exact (settled_not_due props s Hs).
Qed.

(** Between idle states, toggling twice gives back the very same state,
    satellite list included; forcing a state sets it and is idempotent. *)
Theorem toggleMenu_round_trip (s : State) :
  settled props s ->
  dispatch props (ToggleMenu None) (dispatch props (ToggleMenu None) s) = s
  /\ forall b : bool,
       isOpen (dispatch props (ToggleMenu (Some b)) s) = b
       /\ dispatch props (ToggleMenu (Some b))
                   (dispatch props (ToggleMenu (Some b)) s)
          = dispatch props (ToggleMenu (Some b)) s.
Proof.
  intros Hs. destruct (settled_facts s Hs) as [Hdue Hc].
  destruct s as [o bp ip d sr st off ar due n q].
  cbn [effectDue] in Hdue. subst due.
  unfold itemsConsistent in Hc. cbn [isOpen itemPositions buttonPosition] in Hc.
  split.
  - destruct o.
    + destruct Hc as [-> _]. reflexivity.
    + subst ip. reflexivity.
  - intros b. destruct o, b; split; reflexivity.
Qed.

(** In every render, settled or not, the satellite list is either empty or
    a layout of the current props. *)
Lemma rendered_itemPositions (s : State) :
  rendered props s ->
  itemPositions s = []
  \/ exists cx cy : R, itemPositions s = calculateItemPositions props cx cy.
Proof.
  induction 1 as [| ev s Hs IH | s Hs IH].
  - now left.
  - destruct ev as [now rect event | event | now event | now event
                   | forceState | w h]; cbn [handle].
    + destruct rect; exact IH.
    + unfold handlePointerMove. destruct (negb (isDragging s) || _);
        [exact IH|].
      destruct (truthyHandle (animationFrameRef s)); exact IH.
    + unfold handlePointerUp. destruct (negb (isDragging s)); [exact IH|].
      destruct (isClickGesture _ _);
        destruct (truthyHandle (animationFrameRef s)); exact IH.
    + unfold handleClick. destruct (isClickGesture _ _); exact IH.
    + exact IH.
    + destruct (runAnimationFrame_fields props w h s) as (_ & -> & _).
      exact IH.
  - unfold flushEffects, itemPositionsEffect.
    destruct (effectDue s); [|exact IH].
    destruct (isOpen s); unfold_state; [right | now left].
    now exists (pos_x (buttonPosition s)), (pos_y (buttonPosition s)).
Qed.

(** The satellite list never has a length other than 0 and [itemCount],
    also in the renders in which it lags behind [isOpen]. *)
Theorem itemPositions_length_rendered (s : State) :
  rendered props s ->
  length (itemPositions s) = 0%nat
  \/ length (itemPositions s) = Z.to_nat (itemCount props).
Proof.
  intros Hr. destruct (rendered_itemPositions s Hr) as [-> | (cx & cy & ->)].
  - now left.
  - right. apply calculateItemPositions_length.
Qed.

End ToggleFacts.

Lemma idle_settled : settled scenarioProps idle.
Proof. apply settled_mount. Qed.

Lemma toggleMenu_round_trip_witness :
  dispatch scenarioProps (ToggleMenu None)
           (dispatch scenarioProps (ToggleMenu None) idle) = idle.
Proof.
  exact (proj1 (toggleMenu_round_trip scenarioProps idle idle_settled)).
Defined.

Lemma itemPositions_length_rendered_witness :
  length (itemPositions (toggleMenu None idle)) = 0%nat
  \/ length (itemPositions (toggleMenu None idle)) = 4%nat.
Proof.
  apply (itemPositions_length_rendered scenarioProps).
  apply (rendered_handle scenarioProps (ToggleMenu None)).
  apply rendered_effect, rendered_mount.
Defined.

(** ** OrbitalMenuButton *)

Lemma componentProps_itemCount (h0 : R) :
  itemCount (componentProps h0) = Z.of_nat (length MENU_ITEMS).
Proof. reflexivity. Qed.

Lemma skipn_nth_error {A : Type} (l : list A) :
  forall (k : nat) (x : A),
    nth_error l k = Some x -> skipn k l = x :: skipn (S k) l.
Proof.
  induction l as [|y l IH]; intros [|k] x Hk; try discriminate.
  - injection Hk as ->. reflexivity.
  - cbn [nth_error] in Hk. cbn [skipn]. rewrite (IH k x Hk). reflexivity.
Qed.

(** As long as the positions do not outnumber the menu items, every
    position finds its item. *)
Lemma renderItemsFrom_defined (positions : list ItemPosition) :
  forall index : nat,
    (index + length positions <= length MENU_ITEMS)%nat ->
    exists items : list (MenuItem * DOMRect),
      renderItemsFrom index positions = Some items
      /\ map fst items = firstn (length positions) (skipn index MENU_ITEMS)
      /\ map snd items = map itemStyle positions.
Proof.
  induction positions as [|pos rest IH]; intros index Hlen.
  - exists []. repeat split.
  - cbn [length] in Hlen. cbn [renderItemsFrom].
    destruct (nth_error MENU_ITEMS index) as [item|] eqn:Hitem.
    + destruct (IH (S index) ltac:(lia)) as (items & -> & Hfst & Hsnd).
      exists ((item, itemStyle pos) :: items). cbn [option_map map fst snd].
      split; [reflexivity|]. split.
      * rewrite (skipn_nth_error _ _ _ Hitem). cbn [length firstn].
        now rewrite Hfst.
      * now rewrite Hsnd.
    + apply nth_error_None in Hitem. lia.
Qed.

(** In every render of a hook whose [itemCount] does not exceed the number
    of menu items, the component finds [MENU_ITEMS[index]] for every
    position it draws: the items come out in the order of [MENU_ITEMS], each
    in the square of side [ITEM_SIZE] centred on its position. *)
Theorem renderItems_defined (props : UseOrbitalMenuProps) (s : State) :
  (itemCount props <= Z.of_nat (length MENU_ITEMS))%Z ->
  rendered props s ->
  exists items : list (MenuItem * DOMRect),
    renderItems s = Some items
    /\ map fst items = firstn (length (itemPositions s)) MENU_ITEMS
    /\ map snd items = map itemStyle (itemPositions s).
Proof.
  intros Hcount Hr. unfold renderItems.
  apply (renderItemsFrom_defined (itemPositions s) 0).
  destruct (rendered_itemPositions props s Hr) as [-> | (cx & cy & ->)].
  - cbn [length]. lia.
  - rewrite calculateItemPositions_length. lia.
Qed.

Lemma renderItems_defined_witness :
  let s := dispatch (componentProps 800) (ToggleMenu None)
                    (flushEffects (componentProps 800)
                                  (mount (componentProps 800))) in
  exists items : list (MenuItem * DOMRect),
    renderItems s = Some items
    /\ map fst items = firstn (length (itemPositions s)) MENU_ITEMS
    /\ map snd items = map itemStyle (itemPositions s).
Proof.
  intros s. apply (renderItems_defined (componentProps 800)).
  - cbn. lia.
  - apply rendered_effect, (rendered_handle _ (ToggleMenu None)).
    apply rendered_effect, rendered_mount.
Defined.

Lemma componentProps_bounds (h0 w h : R) :
  minX (componentProps h0) = BUTTON_SIZE / 2 + BOUNDARY_PADDING
  /\ maxX (componentProps h0) w = w - BUTTON_SIZE / 2 - BOUNDARY_PADDING
  /\ minY (componentProps h0) = BUTTON_SIZE / 2 + BOUNDARY_PADDING
  /\ maxY (componentProps h0) h = h - BUTTON_SIZE / 2 - BOUNDARY_PADDING.
Proof. repeat split. Qed.

(** In a window that keeps its size and can hold the button with its
    padding, the rectangle the component gives the button stays at least
    [BOUNDARY_PADDING] away from every edge of the window, once the button
    centre is inside the padded viewport. *)
Theorem button_box_stays_on_screen
        (h0 w h : R) (events : list Event) (s : State) :
  BUTTON_SIZE + 2 * BOUNDARY_PADDING <= w ->
  BUTTON_SIZE + 2 * BOUNDARY_PADDING <= h ->
  Forall (frameOf w h) events ->
  inPaddedViewport (componentProps h0) w h (buttonPosition s) ->
  let box := buttonStyle (run (componentProps h0) events s) in
  BOUNDARY_PADDING <= rect_left box
  /\ rect_left box + rect_width box <= w - BOUNDARY_PADDING
  /\ BOUNDARY_PADDING <= rect_top box
  /\ rect_top box + rect_height box <= h - BOUNDARY_PADDING.
Proof.
  intros Hw Hh Hframes Hin box.
  destruct (componentProps_bounds h0 w h) as (Hx0 & Hx1 & Hy0 & Hy1).
  assert (inPaddedViewport (componentProps h0) w h
            (buttonPosition (run (componentProps h0) events s)))
    as [Hx Hy].
  { apply run_keeps_inPaddedViewport; try assumption.
    - rewrite Hx0, Hx1. lra.
    - rewrite Hy0, Hy1. lra. }
  rewrite Hx0, Hx1 in Hx. rewrite Hy0, Hy1 in Hy.
  subst box. unfold buttonStyle.
  cbn [rect_left rect_top rect_width rect_height]. lra.
Qed.

Lemma button_box_stays_on_screen_witness :
  let box :=
    buttonStyle
      (run (componentProps 800)
           [ PointerDown 0 None (pointerAt 100 400);
             PointerMove (pointerAt 2000 900);
             AnimationFrame 1000 800 ]
           (flushEffects (componentProps 800) (mount (componentProps 800)))) in
  BOUNDARY_PADDING <= rect_left box
  /\ rect_left box + rect_width box <= 1000 - BOUNDARY_PADDING
  /\ BOUNDARY_PADDING <= rect_top box
  /\ rect_top box + rect_height box <= 800 - BOUNDARY_PADDING.
Proof.
  apply button_box_stays_on_screen.
  - unfold BUTTON_SIZE, BOUNDARY_PADDING. lra.
  - unfold BUTTON_SIZE, BOUNDARY_PADDING. lra.
  - repeat constructor.
  - destruct (componentProps_bounds 800 1000 800) as (Hx0 & Hx1 & Hy0 & Hy1).
    unfold inPaddedViewport. rewrite Hx0, Hx1, Hy0, Hy1.
    change (buttonPosition
              (flushEffects (componentProps 800) (mount (componentProps 800))))
      with (mkPosition 100 (800 / 2)).
    cbn [pos_x pos_y]. unfold BUTTON_SIZE, BOUNDARY_PADDING. lra.
Defined.

Section ClosingFacts.

Variable props : UseOrbitalMenuProps.

Lemma force_close_settled (s : State) :
  settled props s ->
  let s' := flushEffects props (toggleMenu (Some false) s) in
  isOpen s' = false
  /\ itemPositions s' = []
  /\ buttonPosition s' = buttonPosition s
  /\ (isOpen s = false -> s' = s).
Proof.
  intros Hs. destruct (settled_facts props s Hs) as [Hdue Hc].
  destruct s as [o bp ip d sr st off ar due n q].
  cbn [effectDue] in Hdue. subst due.
  unfold itemsConsistent in Hc. cbn [isOpen itemPositions buttonPosition] in Hc.
  destruct o.
  - repeat split. discriminate.
  - subst ip. repeat split.
Qed.

(** A pointer-down outside the button and outside the menu items closes an
    open menu: once React is idle again the menu is closed, the satellite
    list is empty and the button has not moved.  A pointer-down inside
    either of them, or while the menu is closed, or before both refs are
    attached, changes nothing. *)
Theorem handleOutsideClick_closes
        (inButton inMenu : option bool) (s : State) :
  settled props s ->
  let s' := flushEffects props (handleOutsideClick inButton inMenu s) in
  (isOpen s = true -> inButton = Some false -> inMenu = Some false ->
   isOpen s' = false /\ itemPositions s' = []
   /\ buttonPosition s' = buttonPosition s)
  /\ (isOpen s = false \/ inButton <> Some false \/ inMenu <> Some false ->
      s' = s).
Proof.
  intros Hs s'.
  destruct (force_close_settled s Hs) as (Hopen & Hitems & Hpos & Hsame).
  destruct (settled_facts props s Hs) as [Hdue _].
  subst s'. unfold handleOutsideClick. split.
  - intros -> -> ->. cbn [outsideOf negb andb]. repeat split; assumption.
  - intros Hcase.
    destruct (isOpen s) eqn:Ho; cbn [andb].
    + assert (outsideOf inButton && outsideOf inMenu = false) as ->.
      { destruct Hcase as [Hc | [Hc | Hc]]; [discriminate| |];
          destruct inButton as [[|]|], inMenu as [[|]|];
          try reflexivity; congruence. }
      now apply flushEffects_idle.
    + now apply flushEffects_idle.
Qed.

(** A click on a menu item closes the menu: once React is idle again the
    menu is closed, no item is drawn and the button has not moved. *)
Theorem menuItemOnClick_closes (s : State) :
  settled props s ->
  let s' := flushEffects props (menuItemOnClick s) in
  isOpen s' = false
  /\ itemPositions s' = []
  /\ renderItems s' = Some []
  /\ buttonPosition s' = buttonPosition s.
Proof.
  intros Hs s'.
  destruct (force_close_settled s Hs) as (Hopen & Hitems & Hpos & _).
  subst s'. unfold menuItemOnClick, renderItems.
  rewrite Hitems. repeat split; assumption.
Qed.

End ClosingFacts.

Lemma opened_settled :
  settled scenarioProps (dispatch scenarioProps (ToggleMenu None) idle).
Proof. apply settled_dispatch, idle_settled. Qed.

Lemma handleOutsideClick_closes_witness :
  let opened := dispatch scenarioProps (ToggleMenu None) idle in
  let s' := flushEffects scenarioProps
              (handleOutsideClick (Some false) (Some false) opened) in
  isOpen s' = false /\ itemPositions s' = []
  /\ buttonPosition s' = buttonPosition opened.
Proof.
  intros opened s'.
  apply (proj1 (handleOutsideClick_closes scenarioProps (Some false)
                  (Some false) opened opened_settled));
    reflexivity.
Defined.

Lemma menuItemOnClick_closes_witness :
  let opened := dispatch scenarioProps (ToggleMenu None) idle in
  let s' := flushEffects scenarioProps (menuItemOnClick opened) in
  isOpen s' = false
  /\ itemPositions s' = []
  /\ renderItems s' = Some []
  /\ buttonPosition s' = buttonPosition opened.
Proof.
  intros opened s'.
  exact (menuItemOnClick_closes scenarioProps opened opened_settled).
Defined.

(** ** Press, release, click *)

(** A press, its release and the click the browser sends after it: if the
    click comes 200ms or more after the press the menu keeps its state (a
    long press is a drag); if it comes sooner the menu is toggled, wherever
    the pointer went in between, since the release has already cleared the
    start point the click handler would measure the distance from. *)
Theorem press_release_click_timing
        (props : UseOrbitalMenuProps) (t0 t1 t2 : Z) (rect : option DOMRect)
        (down up : PointerEvent) (click : MouseEvent) (s : State) :
  let s' := run props [PointerDown t0 rect down; PointerUp t1 up;
                       Click t2 click] s in
  ((CLICK_THRESHOLD_MS <= t2 - t0)%Z -> isOpen s' = isOpen s)
  /\ ((t2 - t0 < CLICK_THRESHOLD_MS)%Z -> isOpen s' = negb (isOpen s)).
Proof.
  intros s'. subst s'. rewrite press_release_click_isOpen. split.
  - intros Hslow.
    assert ((t2 - t0 <? CLICK_THRESHOLD_MS)%Z = false) as ->
        by (apply Z.ltb_ge; exact Hslow).
    reflexivity.
  - intros Hquick.
    assert ((t2 - t0 <? CLICK_THRESHOLD_MS)%Z = true) as ->
        by (apply Z.ltb_lt; exact Hquick).
    reflexivity.
Qed.

(** A tap: press at (100, 400), release and click 50ms later at
    (102, 401). *)
Lemma press_release_click_timing_witness :
  isOpen (run scenarioProps
              [ PointerDown 0 (Some (buttonRectAt 100 400)) (pointerAt 100 400);
                PointerUp 50 (pointerAt 102 401);
                Click 50 (mkMouseEvent 102 401) ]
              idle)
  = negb (isOpen idle).
Proof.
  apply (proj2 (press_release_click_timing scenarioProps 0 50 50
                  (Some (buttonRectAt 100 400)) (pointerAt 100 400)
                  (pointerAt 102 401) (mkMouseEvent 102 401) idle)).
  unfold CLICK_THRESHOLD_MS. lia.
Defined.
